(** * Merlin job service (pkg/services/job/job.go): a shallow embedding

    The development models the job service of the Merlin command and control
    server: the Builder ([Service.Add], [AddJobChannel], [buildJob]), the
    inbound dispatcher ([Handler], [checkJob], [fileTransfer]) and the
    singleton factory [NewJobService].

    Go strings and byte slices are modelled as [string] (one [ascii] per
    byte); 128-bit UUIDs as [N]; the job repository, the agent directory,
    the broadcast sink and the file system as fields of an explicit state
    threaded through a small state/error/panic monad. *)

From Stdlib Require Import ZArith NArith String Ascii List Bool Lia.
From Stdlib Require Import DecimalString.
From stdpp Require Import base gmap strings list fin_maps.
Import ListNotations.

Local Open Scope Z_scope.

(* ===================================================================== *)
(** ** Byte strings *)
(* ===================================================================== *)

Module Bytes.

(** A Go string / []byte as a list of byte values in [0, 256). *)
Definition to_list (s : string) : list Z :=
  map (fun a => Z.of_N (N_of_ascii a)) (list_ascii_of_string s).

Definition of_list (l : list Z) : string :=
  string_of_list_ascii (map (fun z => ascii_of_N (Z.to_N z)) l).

(** [strings.Join(xs, sep)] *)
Fixpoint join (sep : string) (xs : list string) : string :=
  match xs with
  | [] => EmptyString
  | [x] => x
  | x :: rest => String.append x (String.append sep (join sep rest))
  end.

(** [s[:n]] for [n <= len(s)] *)
Definition prefix (n : nat) (s : string) : string := substring 0 n s.

(** [fmt.Sprintf("%d", n)] for a non-negative length *)
Definition dec (n : nat) : string := NilZero.string_of_uint (Nat.to_uint n).

(** Index of the last occurrence of a character, as [strings.LastIndex]. *)
Fixpoint last_index_aux (c : ascii) (s : string) (i : nat) (acc : option nat)
  : option nat :=
  match s with
  | EmptyString => acc
  | String a r =>
      last_index_aux c r (S i) (if Ascii.eqb a c then Some i else acc)
  end.

Definition last_index (c : ascii) (s : string) : option nat :=
  last_index_aux c s 0 None.

(** Split a string on a separator character, as [strings.Split]. *)
Fixpoint split_on (c : ascii) (s : string) : list string :=
  match s with
  | EmptyString => [EmptyString]
  | String a r =>
      if Ascii.eqb a c then EmptyString :: split_on c r
      else match split_on c r with
           | [] => [String a EmptyString]
           | w :: ws => String a w :: ws
           end
  end.

End Bytes.

(* ===================================================================== *)
(** ** Hexadecimal rendering *)
(* ===================================================================== *)

Module Hex.

Definition digit (z : Z) : ascii :=
  if z <? 10 then ascii_of_N (Z.to_N (48 + z)) else ascii_of_N (Z.to_N (87 + z)).

(** [fmt.Sprintf("%x", s)]: two lower-case hex digits per byte. *)
Fixpoint of_bytes (l : list Z) : string :=
  match l with
  | [] => EmptyString
  | b :: r => String (digit (Z.shiftr b 4)) (String (digit (Z.land b 15)) (of_bytes r))
  end.

Definition encode (s : string) : string := of_bytes (Bytes.to_list s).

(** The [n] low nibbles of [v], most significant first. *)
Fixpoint nibbles (n : nat) (v : N) : string :=
  match n with
  | O => EmptyString
  | S k => String (digit (Z.of_N (N.land (N.shiftr v (4 * N.of_nat k)) 15))) (nibbles k v)
  end.

End Hex.

(** [uuid.UUID.String()]: canonical 8-4-4-4-12 rendering of a 128-bit value. *)
Definition uuid_string (u : N) : string :=
  let h := Hex.nibbles 32 u in
  String.append (substring 0 8 h)
  (String.append "-" (String.append (substring 8 4 h)
  (String.append "-" (String.append (substring 12 4 h)
  (String.append "-" (String.append (substring 16 4 h)
  (String.append "-" (substring 20 12 h)))))))).

(** [uuid.Nil] *)
Definition uuid_nil : N := 0%N.

(* ===================================================================== *)
(** ** SHA-256 ([crypto/sha256]) *)
(* ===================================================================== *)

Module SHA256.

Definition mask32 (x : Z) : Z := Z.land x (2 ^ 32 - 1).
Definition add32 (x y : Z) : Z := mask32 (x + y).
Definition rotr (x : Z) (n : Z) : Z :=
  mask32 (Z.lor (Z.shiftr x n) (Z.shiftl x (32 - n))).
Definition not32 (x : Z) : Z := Z.lxor x (2 ^ 32 - 1).

Definition Ch (x y z : Z) := Z.lxor (Z.land x y) (Z.land (not32 x) z).
Definition Maj (x y z : Z) := Z.lxor (Z.lxor (Z.land x y) (Z.land x z)) (Z.land y z).
Definition Sigma0 (x : Z) := Z.lxor (Z.lxor (rotr x 2) (rotr x 13)) (rotr x 22).
Definition Sigma1 (x : Z) := Z.lxor (Z.lxor (rotr x 6) (rotr x 11)) (rotr x 25).
Definition sigma0 (x : Z) := Z.lxor (Z.lxor (rotr x 7) (rotr x 18)) (Z.shiftr x 3).
Definition sigma1 (x : Z) := Z.lxor (Z.lxor (rotr x 17) (rotr x 19)) (Z.shiftr x 10).

(** The first primes, by trial division. *)
Definition is_prime (n : Z) : bool :=
  forallb (fun d => negb (Z.eqb (n mod d) 0)) (map Z.of_nat (seq 2 (Z.to_nat n - 2))).

Definition primes (k : nat) : list Z :=
  firstn k (filter is_prime (map Z.of_nat (seq 2 400))).

(** Integer cube root by bisection: the largest [r] with [r^3 <= x], for
    [x < hi^3]. *)
Fixpoint cbrt_search (fuel : nat) (x lo hi : Z) : Z :=
  match fuel with
  | O => lo
  | S f =>
      if Z.leb (hi - lo) 1 then lo
      else let m := (lo + hi) / 2 in
           if Z.leb (m * m * m) x then cbrt_search f x m hi else cbrt_search f x lo m
  end.

(** Round constants: the first 32 fractional bits of the cube roots of the
    first 64 primes. *)
Definition K : list Z :=
  Eval vm_compute in
    map (fun p => cbrt_search 40 (p * 2 ^ 96) 0 (2 ^ 36) mod 2 ^ 32) (primes 64).

(** Initial hash value: the first 32 fractional bits of the square roots of
    the first 8 primes. *)
Definition H0 : list Z :=
  Eval vm_compute in map (fun p => Z.sqrt (p * 2 ^ 64) mod 2 ^ 32) (primes 8).

(** Big-endian [n]-byte encoding of [v]. *)
Fixpoint be_bytes (n : nat) (v : Z) : list Z :=
  match n with
  | O => []
  | S k => Z.land (Z.shiftr v (8 * Z.of_nat k)) 255 :: be_bytes k v
  end.

(** Message padding: 0x80, zeros to 56 mod 64, then the 64-bit bit length. *)
Definition pad (msg : list Z) : list Z :=
  let l := length msg in
  let zeros := ((119 - l mod 64) mod 64)%nat in
  msg ++ [128] ++ repeat 0 zeros ++ be_bytes 8 (8 * Z.of_nat l).

Fixpoint words (fuel : nat) (b : list Z) : list Z :=
  match fuel, b with
  | S f, b0 :: b1 :: b2 :: b3 :: r =>
      (Z.lor (Z.shiftl b0 24) (Z.lor (Z.shiftl b1 16) (Z.lor (Z.shiftl b2 8) b3)))
        :: words f r
  | _, _ => []
  end.

(** Message schedule W[0..63], built on the reversed prefix. *)
Fixpoint schedule_rev (n : nat) (w : list Z) : list Z :=
  match n with
  | O => w
  | S k =>
      let w' := schedule_rev k w in
      let t i := nth i w' 0 in
      add32 (add32 (sigma1 (t 1%nat)) (t 6%nat))
            (add32 (sigma0 (t 14%nat)) (t 15%nat)) :: w'
  end.

Definition schedule (block : list Z) : list Z :=
  rev (schedule_rev 48 (rev (words 16 block))).

Fixpoint rounds (ks ws : list Z) (st : list Z) : list Z :=
  match ks, ws, st with
  | k :: ks', w :: ws', [a; b; c; d; e; f; g; h] =>
      let t1 := add32 (add32 (add32 (add32 h (Sigma1 e)) (Ch e f g)) k) w in
      let t2 := add32 (Sigma0 a) (Maj a b c) in
      rounds ks' ws' [add32 t1 t2; a; b; c; add32 d t1; e; f; g]
  | _, _, _ => st
  end.

Definition compress (hs : list Z) (block : list Z) : list Z :=
  zip_with add32 hs (rounds K (schedule block) hs).

Fixpoint blocks (fuel : nat) (hs : list Z) (m : list Z) : list Z :=
  match fuel with
  | O => hs
  | S f =>
      match m with
      | [] => hs
      | _ => blocks f (compress hs (firstn 64 m)) (skipn 64 m)
      end
  end.

Definition digest (msg : list Z) : list Z :=
  let p := pad msg in
  flat_map (be_bytes 4) (blocks (length p) H0 p).

(** [sha256.New(); io.WriteString(h, s); h.Sum(nil)] as a Go string of 32 bytes. *)
Definition sum (s : string) : string := Bytes.of_list (digest (Bytes.to_list s)).

End SHA256.

(* ===================================================================== *)
(** ** Base64 ([encoding/base64].StdEncoding) *)
(* ===================================================================== *)

Module Base64.

Definition alphabet : string :=
  "ABCDEFGHIJKLMNOPQRSTUVWXYZabcdefghijklmnopqrstuvwxyz0123456789+/".

Definition enc_char (z : Z) : ascii :=
  match get (Z.to_nat z) alphabet with Some a => a | None => "="%char end.

Definition pad_char : ascii := "="%char.

(** [EncodeToString] on a byte list. *)
Fixpoint encode_list (fuel : nat) (l : list Z) : string :=
  match fuel with
  | O => EmptyString
  | S f =>
      match l with
      | [] => EmptyString
      | [a] =>
          String (enc_char (Z.shiftr a 2))
          (String (enc_char (Z.shiftl (Z.land a 3) 4))
          (String pad_char (String pad_char EmptyString)))
      | [a; b] =>
          String (enc_char (Z.shiftr a 2))
          (String (enc_char (Z.lor (Z.shiftl (Z.land a 3) 4) (Z.shiftr b 4)))
          (String (enc_char (Z.shiftl (Z.land b 15) 2))
          (String pad_char EmptyString)))
      | a :: b :: c :: r =>
          String (enc_char (Z.shiftr a 2))
          (String (enc_char (Z.lor (Z.shiftl (Z.land a 3) 4) (Z.shiftr b 4)))
          (String (enc_char (Z.lor (Z.shiftl (Z.land b 15) 2) (Z.shiftr c 6)))
          (String (enc_char (Z.land c 63))
          (encode_list f r))))
      end
  end.

Definition EncodeToString (s : string) : string :=
  let l := Bytes.to_list s in encode_list (length l) l.

(** Value of an alphabet character, if any. *)
Definition dec_char (a : ascii) : option Z :=
  let n := Z.of_N (N_of_ascii a) in
  if (65 <=? n) && (n <=? 90) then Some (n - 65)
  else if (97 <=? n) && (n <=? 122) then Some (n - 71)
  else if (48 <=? n) && (n <=? 57) then Some (n + 4)
  else if n =? 43 then Some 62
  else if n =? 47 then Some 63
  else None.

(** [DecodeString]: new lines are ignored; the input must be padded to a
    multiple of four characters; padding may only end the input. *)
Fixpoint decode_list (fuel : nat) (l : list ascii) : option (list Z) :=
  match fuel with
  | O => match l with [] => Some [] | _ => None end
  | S f =>
      match l with
      | [] => Some []
      | [c0; c1; "="%char; "="%char] =>
          match dec_char c0, dec_char c1 with
          | Some v0, Some v1 => Some [Z.lor (Z.shiftl v0 2) (Z.shiftr v1 4)]
          | _, _ => None
          end
      | [c0; c1; c2; "="%char] =>
          match dec_char c0, dec_char c1, dec_char c2 with
          | Some v0, Some v1, Some v2 =>
              Some [Z.lor (Z.shiftl v0 2) (Z.shiftr v1 4);
                    Z.land (Z.lor (Z.shiftl v1 4) (Z.shiftr v2 2)) 255]
          | _, _, _ => None
          end
      | c0 :: c1 :: c2 :: c3 :: r =>
          match dec_char c0, dec_char c1, dec_char c2, dec_char c3 with
          | Some v0, Some v1, Some v2, Some v3 =>
              match decode_list f r with
              | Some rest =>
                  Some (Z.lor (Z.shiftl v0 2) (Z.shiftr v1 4)
                        :: Z.land (Z.lor (Z.shiftl v1 4) (Z.shiftr v2 2)) 255
                        :: Z.land (Z.lor (Z.shiftl v2 6) v3) 255 :: rest)
              | None => None
              end
          | _, _, _, _ => None
          end
      | _ => None
      end
  end.

Definition is_newline (a : ascii) : bool :=
  Ascii.eqb a "010"%char || Ascii.eqb a "013"%char.

Definition DecodeString (s : string) : option string :=
  let l := filter (fun a => negb (is_newline a)) (list_ascii_of_string s) in
  option_map Bytes.of_list (decode_list (length l) l).

End Base64.

(* ===================================================================== *)
(** ** Paths ([path/filepath] on a Unix host) *)
(* ===================================================================== *)

Module FilePath.

Fixpoint clean_parts (rooted : bool) (ps : list string) (out : list string)
  : list string :=
  match ps with
  | [] => out
  | p :: rest =>
      if String.eqb p "" || String.eqb p "." then clean_parts rooted rest out
      else if String.eqb p ".." then
        match out with
        | q :: out' =>
            if String.eqb q ".." then clean_parts rooted rest (".." :: out)
            else clean_parts rooted rest out'
        | [] =>
            if rooted then clean_parts rooted rest []
            else clean_parts rooted rest [".."%string]
        end
      else clean_parts rooted rest (p :: out)
  end.

(** [filepath.Clean] *)
Definition Clean (p : string) : string :=
  match p with
  | EmptyString => "."
  | String c _ =>
      let rooted := Ascii.eqb c "/"%char in
      let body := Bytes.join "/" (rev (clean_parts rooted (Bytes.split_on "/"%char p) [])) in
      if rooted then String "/"%char body
      else if String.eqb body "" then "." else body
  end.

(** [filepath.Join]: empty elements are ignored, the result is cleaned. *)
Definition Join (elems : list string) : string :=
  match filter (fun e => negb (String.eqb e "")) elems with
  | [] => ""
  | es => Clean (Bytes.join "/" es)
  end.

(** [filepath.Split]: split immediately after the last separator. *)
Definition Split (p : string) : string * string :=
  match Bytes.last_index "/"%char p with
  | Some i => (substring 0 (S i) p, substring (S i) (String.length p - S i) p)
  | None => (EmptyString, p)
  end.

(** [filepath.Base] *)
Definition Base (p : string) : string :=
  match p with
  | EmptyString => "."
  | _ =>
      let parts := filter (fun e => negb (String.eqb e "")) (Bytes.split_on "/"%char p) in
      match last parts with
      | Some b => b
      | None => "/"
      end
  end.

(** [filepath.Dir] *)
Definition Dir (p : string) : string := Clean (fst (Split p)).

End FilePath.

(* ===================================================================== *)
(** ** Job model ([pkg/jobs]) *)
(* ===================================================================== *)

(** Job type tags. *)
Inductive JobType :=
| UNSET | CMD | CONTROL | SHELLCODE | NATIVE | FILETRANSFER | OK
| MODULE | SOCKS | RESULT | AGENTINFO.

#[global] Instance JobType_eq_dec : EqDecision JobType.
Proof. solve_decision. Defined.

(** Modelled from the spec: [jobs.String] and [messages.String] (pkg/jobs
    and pkg/messages are not under src/); the textual name of a type tag. *)
Definition type_string (t : JobType) : string :=
  match t with
  | UNSET => "UNSET" | CMD => "CMD" | CONTROL => "CONTROL"
  | SHELLCODE => "SHELLCODE" | NATIVE => "NATIVE"
  | FILETRANSFER => "FILETRANSFER" | OK => "OK" | MODULE => "MODULE"
  | SOCKS => "SOCKS" | RESULT => "RESULT" | AGENTINFO => "AGENTINFO"
  end.

(** The payload is a Go [interface{}]; its dynamic type is one of these. *)
Inductive Payload :=
| Command (command : string) (args : list string)
| FileTransfer (file_location file_blob : string) (is_download : bool)
| Shellcode (method : string) (pid : N) (bytes : string)
| Socks (sid : string) (index : Z) (data : string) (close : bool)
| Results (stdout stderr : string)
| AgentInfo (info : string)
| NoPayload.

Record Job := {
  job_agent : N;          (* AgentID *)
  job_id : string;        (* ID, "" when unset *)
  job_token : N;          (* Token, uuid.Nil when unset *)
  job_type : JobType;
  job_payload : Payload;
}.

Definition empty_job : Job :=
  {| job_agent := uuid_nil; job_id := ""; job_token := uuid_nil;
     job_type := UNSET; job_payload := NoPayload |}.

Inductive Status := CREATED | SENT | RETURNED | ACTIVE | COMPLETE | CANCELED.

#[global] Instance Status_eq_dec : EqDecision Status.
Proof. solve_decision. Defined.

(** Modelled from the spec: [jobs.Info], the server-side tracking record
    (pkg/jobs is not under src/). Times are clock ticks, 0 is the zero time. *)
Record Info := {
  info_id : string;
  info_agent : N;
  info_type : string;
  info_command : string;
  info_token : N;
  info_status : Status;
  info_created : N;
  info_sent : N;
  info_completed : N;
}.

(** Modelled from the spec: [Info.Complete] marks the record COMPLETE and
    stamps [completed_at]. *)
Definition Info_Complete (now : N) (i : Info) : Info :=
  {| info_id := info_id i; info_agent := info_agent i; info_type := info_type i;
     info_command := info_command i; info_token := info_token i;
     info_status := COMPLETE; info_created := info_created i;
     info_sent := info_sent i; info_completed := now |}.

(** Modelled from the spec: [Info.Active] marks the record ACTIVE. *)
Definition Info_Active (i : Info) : Info :=
  {| info_id := info_id i; info_agent := info_agent i; info_type := info_type i;
     info_command := info_command i; info_token := info_token i;
     info_status := ACTIVE; info_created := info_created i;
     info_sent := info_sent i; info_completed := info_completed i |}.

(* ===================================================================== *)
(** ** Errors, state and the service monad *)
(* ===================================================================== *)

(** One constructor per [fmt.Errorf] site (and the collaborators' errors). *)
Inductive error :=
| ErrArgs (kind : string)                 (* "expected N argument(s) ..." *)
| ErrRead (path : string)                 (* ioutil.ReadFile failed *)
| ErrAtoi (s : string)                    (* strconv.Atoi failed *)
| ErrInvalidJobType                       (* "invalid job type: %d" *)
| ErrNoAgents                             (* "there are 0 available agents ..." *)
| ErrBuildUnknownAgent (agent : N)        (* buildJob: "... is an unknown agent" *)
| ErrAgentNotFound (agent : N)            (* agentService.Agent *)
| ErrHandler (e : error)                  (* "pkg/services/job.Handler(): %s" *)
| ErrCheck (e : error)                    (* "pkg/services/job.checkJob: %s" *)
| ErrCheckInvalidAgent (id : string) (agent : N)
| ErrToken (id : string) (expected got : N)
| ErrCompleted (id : string)              (* "... was previously completed ..." *)
| ErrCanceled (id : string)               (* "... was previously canceled ..." *)
| ErrNotFound (id : string)               (* repository: unknown job id *)
| ErrDuplicate (id : string)              (* repository: id already present *)
| ErrNotValidAgent (agent : N)            (* fileTransfer: "%s is not a valid agent" *)
| ErrLocateDir                            (* "... error locating the agent's directory" *)
| ErrDecodeBlob                           (* "... error decoding the fileBlob" *)
| ErrWriting (location : string)          (* "... error writing to -> %s" *)
| ErrTwo (e1 e2 : error)                  (* "there were to errors: ..." *)
| ErrAgentLog (agent : N)                 (* agentService.Log *)
| ErrUpdateAgentInfo (agent : N)          (* agentService.UpdateAgentInfo *)
| ErrOS (path : string).                  (* os-level write failure *)

Inductive Level := Note | Success | Warn.

Record St := {
  st_agents : list N;                      (* agentService.Agents(), in order *)
  st_queues : gmap N (list Job);           (* repository: queued jobs per agent *)
  st_infos : gmap string Info;             (* repository: JobInfo by id *)
  st_alog : list (N * string);             (* per-agent log lines *)
  st_bcast : list (Level * string);        (* SendBroadcastMessage *)
  st_dirs : gset string;                   (* directories on disk *)
  st_files : gmap string (string * N);     (* files on disk: bytes, mode *)
  st_cwd : string;                         (* core.CurrentDir *)
  st_debug : bool;                         (* core.Debug *)
  st_stdout : list string;                 (* fmt.Printf *)
  st_socks_in : list Job;                  (* socks.In *)
  st_agent_infos : list (N * string);      (* UpdateAgentInfo calls *)
  st_now : N;                              (* time.Now() *)
  st_next_uuid : N;                        (* uuid.NewV4() supply *)
}.

Definition set_repo (q : gmap N (list Job)) (i : gmap string Info) (s : St) : St :=
  {| st_agents := st_agents s; st_queues := q; st_infos := i;
     st_alog := st_alog s; st_bcast := st_bcast s; st_dirs := st_dirs s;
     st_files := st_files s; st_cwd := st_cwd s; st_debug := st_debug s;
     st_stdout := st_stdout s; st_socks_in := st_socks_in s;
     st_agent_infos := st_agent_infos s; st_now := st_now s;
     st_next_uuid := st_next_uuid s |}.

Definition set_alog (l : list (N * string)) (s : St) : St :=
  {| st_agents := st_agents s; st_queues := st_queues s; st_infos := st_infos s;
     st_alog := l; st_bcast := st_bcast s; st_dirs := st_dirs s;
     st_files := st_files s; st_cwd := st_cwd s; st_debug := st_debug s;
     st_stdout := st_stdout s; st_socks_in := st_socks_in s;
     st_agent_infos := st_agent_infos s; st_now := st_now s;
     st_next_uuid := st_next_uuid s |}.

Definition set_bcast (l : list (Level * string)) (s : St) : St :=
  {| st_agents := st_agents s; st_queues := st_queues s; st_infos := st_infos s;
     st_alog := st_alog s; st_bcast := l; st_dirs := st_dirs s;
     st_files := st_files s; st_cwd := st_cwd s; st_debug := st_debug s;
     st_stdout := st_stdout s; st_socks_in := st_socks_in s;
     st_agent_infos := st_agent_infos s; st_now := st_now s;
     st_next_uuid := st_next_uuid s |}.

Definition set_files (f : gmap string (string * N)) (s : St) : St :=
  {| st_agents := st_agents s; st_queues := st_queues s; st_infos := st_infos s;
     st_alog := st_alog s; st_bcast := st_bcast s; st_dirs := st_dirs s;
     st_files := f; st_cwd := st_cwd s; st_debug := st_debug s;
     st_stdout := st_stdout s; st_socks_in := st_socks_in s;
     st_agent_infos := st_agent_infos s; st_now := st_now s;
     st_next_uuid := st_next_uuid s |}.

Definition set_stdout (l : list string) (s : St) : St :=
  {| st_agents := st_agents s; st_queues := st_queues s; st_infos := st_infos s;
     st_alog := st_alog s; st_bcast := st_bcast s; st_dirs := st_dirs s;
     st_files := st_files s; st_cwd := st_cwd s; st_debug := st_debug s;
     st_stdout := l; st_socks_in := st_socks_in s;
     st_agent_infos := st_agent_infos s; st_now := st_now s;
     st_next_uuid := st_next_uuid s |}.

Definition set_socks_in (l : list Job) (s : St) : St :=
  {| st_agents := st_agents s; st_queues := st_queues s; st_infos := st_infos s;
     st_alog := st_alog s; st_bcast := st_bcast s; st_dirs := st_dirs s;
     st_files := st_files s; st_cwd := st_cwd s; st_debug := st_debug s;
     st_stdout := st_stdout s; st_socks_in := l;
     st_agent_infos := st_agent_infos s; st_now := st_now s;
     st_next_uuid := st_next_uuid s |}.

Definition set_agent_infos (l : list (N * string)) (s : St) : St :=
  {| st_agents := st_agents s; st_queues := st_queues s; st_infos := st_infos s;
     st_alog := st_alog s; st_bcast := st_bcast s; st_dirs := st_dirs s;
     st_files := st_files s; st_cwd := st_cwd s; st_debug := st_debug s;
     st_stdout := st_stdout s; st_socks_in := st_socks_in s;
     st_agent_infos := l; st_now := st_now s;
     st_next_uuid := st_next_uuid s |}.

Definition set_next_uuid (n : N) (s : St) : St :=
  {| st_agents := st_agents s; st_queues := st_queues s; st_infos := st_infos s;
     st_alog := st_alog s; st_bcast := st_bcast s; st_dirs := st_dirs s;
     st_files := st_files s; st_cwd := st_cwd s; st_debug := st_debug s;
     st_stdout := st_stdout s; st_socks_in := st_socks_in s;
     st_agent_infos := st_agent_infos s; st_now := st_now s;
     st_next_uuid := n |}.

(** Outcome of a Go call: a value, a returned error, or a run-time panic
    (index out of range, failed type assertion). *)
Inductive res (A : Type) :=
| ROk (a : A)
| RErr (e : error)
| RPanic (msg : string).
Arguments ROk {A} a.
Arguments RErr {A} e.
Arguments RPanic {A} msg.

Definition M (A : Type) : Type := St -> res A * St.

#[global] Instance M_ret : MRet M := fun A a s => (ROk a, s).
#[global] Instance M_bind : MBind M := fun A B k m s =>
  match m s with
  | (ROk a, s') => k a s'
  | (RErr e, s') => (RErr e, s')
  | (RPanic p, s') => (RPanic p, s')
  end.

Definition throw {A} (e : error) : M A := fun s => (RErr e, s).
Definition panic {A} (msg : string) : M A := fun s => (RPanic msg, s).
Definition gets {A} (f : St -> A) : M A := fun s => (ROk (f s), s).
Definition modify (f : St -> St) : M unit := fun s => (ROk tt, f s).

(** [xs[i]], panicking out of range. *)
Definition index {A} (xs : list A) (i : nat) : M A :=
  match nth_error xs i with
  | Some x => mret x
  | None => panic "index out of range"
  end.

(** [fmt.Sprintf] of a time value (stands in for RFC3339 formatting). *)
Definition fmt_time (t : N) : string := Bytes.dec (N.to_nat t).

Infix "+++" := String.append (at level 60, right associativity).

(** ASCII case folding and trimming ([strings.ToLower], [strings.TrimSpace]). *)
Definition lower_char (a : ascii) : ascii :=
  let n := N_of_ascii a in
  if (65 <=? n)%N && (n <=? 90)%N then ascii_of_N (n + 32) else a.

Fixpoint ToLower (s : string) : string :=
  match s with
  | EmptyString => EmptyString
  | String a r => String (lower_char a) (ToLower r)
  end.

Definition is_space (a : ascii) : bool :=
  let n := N_of_ascii a in
  (n =? 32)%N || ((9 <=? n)%N && (n <=? 13)%N).

Fixpoint trim_left (s : string) : string :=
  match s with
  | String a r => if is_space a then trim_left r else s
  | EmptyString => EmptyString
  end.

Definition TrimSpace (s : string) : string :=
  string_of_list_ascii (rev (list_ascii_of_string
    (trim_left (string_of_list_ascii (rev (list_ascii_of_string (trim_left s))))))).

(** [strconv.Atoi]: optional sign, at least one decimal digit, 64-bit range. *)
Fixpoint digits_value (s : string) (acc : Z) : option Z :=
  match s with
  | EmptyString => Some acc
  | String a r =>
      let n := Z.of_N (N_of_ascii a) in
      if (48 <=? n) && (n <=? 57) then digits_value r (10 * acc + (n - 48)) else None
  end.

Definition Atoi (s : string) : option Z :=
  let '(neg, body) :=
    match s with
    | String "-"%char r => (true, r)
    | String "+"%char r => (false, r)
    | _ => (false, s)
    end in
  match body with
  | EmptyString => None
  | _ =>
      match digits_value body 0 with
      | Some v =>
          let v' := if neg then - v else v in
          if (- 2 ^ 63 <=? v') && (v' <? 2 ^ 63) then Some v' else None
      | None => None
      end
  end.

(* ===================================================================== *)
(** ** Collaborators *)
(* ===================================================================== *)

Section Collaborators.

(** Modelled from the spec: [agentService.Exist] (pkg/services/agent is not
    under src/): an agent is known when it is in the directory. *)
Definition Exist (a : N) (s : St) : bool := bool_decide (a ∈ st_agents s).

(** Modelled from the spec: [agentService.Agent]: a handle for a known
    agent, an error otherwise. *)
Definition Agent (a : N) : M N :=
  fun s => if Exist a s then (ROk a, s) else (RErr (ErrAgentNotFound a), s).

(** Modelled from the spec: [agent.Log] on an agent handle. *)
Definition agent_Log (a : N) (msg : string) : M unit :=
  modify (fun s => set_alog (st_alog s ++ [(a, msg)]) s).

(** Modelled from the spec: [agentService.Log(id, msg) error]. *)
Definition service_Log (a : N) (msg : string) : M (option error) :=
  fun s => if Exist a s then (ROk None, set_alog (st_alog s ++ [(a, msg)]) s)
           else (ROk (Some (ErrAgentLog a)), s).

(** Modelled from the spec: [agentService.UpdateAgentInfo(id, info) error]. *)
Definition UpdateAgentInfo (a : N) (info : string) : M (option error) :=
  fun s => if Exist a s
           then (ROk None, set_agent_infos (st_agent_infos s ++ [(a, info)]) s)
           else (ROk (Some (ErrUpdateAgentInfo a)), s).

(** Modelled from the spec: [messageAPI.SendBroadcastMessage]. *)
Definition SendBroadcastMessage (l : Level) (msg : string) : M unit :=
  modify (fun s => set_bcast (st_bcast s ++ [(l, msg)]) s).

(** Modelled from the spec: [socks.In], the SOCKS inbound sink. *)
Definition socks_In (j : Job) : M unit :=
  modify (fun s => set_socks_in (st_socks_in s ++ [j]) s).

(** [fmt.Printf] *)
Definition Printf (msg : string) : M unit :=
  modify (fun s => set_stdout (st_stdout s ++ [msg]) s).

Definition Now : M N := gets st_now.

(** [uuid.NewV4()]: a value never handed out before. *)
Definition NewV4 : M N :=
  fun s => (ROk (st_next_uuid s), set_next_uuid (N.succ (st_next_uuid s)) s).

End Collaborators.

(** *** The job repository (pkg/jobs/memory) *)

Module Repo.

(** Modelled from the spec: [jobRepo.Add(job, info)]: insert both; fails
    when [info.id] is already present (pkg/jobs/memory is not under src/).
    The job is queued at the end of its agent's FIFO queue. *)
Definition Add (j : Job) (i : Info) : M (option error) :=
  fun s =>
    match st_infos s !! info_id i with
    | Some _ => (ROk (Some (ErrDuplicate (info_id i))), s)
    | None =>
        let q := default [] (st_queues s !! job_agent j) in
        (ROk None, set_repo (<[job_agent j := q ++ [j]]> (st_queues s))
                            (<[info_id i := i]> (st_infos s)) s)
    end.

(** Modelled from the spec: [jobRepo.GetInfo(id)]; [None] is the NotFound error. *)
Definition GetInfo (id : string) : M (option Info) := gets (fun s => st_infos s !! id).

(** Modelled from the spec: [jobRepo.UpdateInfo(info)]: replace by id,
    fails when the id is unknown. *)
Definition UpdateInfo (i : Info) : M (option error) :=
  fun s =>
    match st_infos s !! info_id i with
    | Some _ => (ROk None, set_repo (st_queues s) (<[info_id i := i]> (st_infos s)) s)
    | None => (ROk (Some (ErrNotFound (info_id i))), s)
    end.

End Repo.

(** Modelled from the spec: [jobs.NewInfo(agentID, type, command)]: a fresh
    id and a fresh token, status CREATED, created now. *)
Definition NewInfo (agent : N) (typ : string) (command : string) : M Info :=
  idu ← NewV4;
  tok ← NewV4;
  now ← Now;
  mret {| info_id := uuid_string idu; info_agent := agent; info_type := typ;
          info_command := command; info_token := tok; info_status := CREATED;
          info_created := now; info_sent := 0; info_completed := 0 |}.

(** *** The file system ([os], [io/ioutil]) *)

Module OS.

(** [os.Stat(p)] succeeds (so [os.IsNotExist] is false). *)
Definition Stat_exists (p : string) : M bool :=
  gets (fun s => bool_decide (p ∈ st_dirs s) || bool_decide (is_Some (st_files s !! p))).

(** [ioutil.ReadFile(p)]; [None] is the error. *)
Definition ReadFile (p : string) : M (option string) :=
  gets (fun s => fst <$> st_files s !! p).

(** [ioutil.WriteFile(name, data, perm)]: opens with O_CREATE|O_TRUNC; the
    parent directory must exist and [name] must not be a directory; a new
    file gets [perm] (a process umask of 0 is assumed), an existing file
    keeps its mode. *)
Definition WriteFile (name data : string) (perm : N) : M (option error) :=
  fun s =>
    if bool_decide (name ∈ st_dirs s) then (ROk (Some (ErrOS name)), s)
    else if bool_decide (FilePath.Dir name ∈ st_dirs s) then
      let mode := match st_files s !! name with Some (_, m) => m | None => perm end in
      (ROk None, set_files (<[name := (data, mode)]> (st_files s)) s)
    else (ROk (Some (ErrOS name)), s).

End OS.

(* ===================================================================== *)
(** ** The Builder: [Service.Add] (job.go, lines 74-469) *)
(* ===================================================================== *)

(** [var job jobs.Job] with [Type] and [Payload] filled in. *)
Definition mk_job (t : JobType) (p : Payload) : Job :=
  {| job_agent := uuid_nil; job_id := ""; job_token := uuid_nil;
     job_type := t; job_payload := p |}.

(** [jobArgs[1:]] guarded by a length test in the source. *)
Definition tail_if (b : bool) (xs : list string) : list string :=
  if b then tl xs else [].

(** The cases [ja3], [killdate], [maxretry], [padding], [skew], [sleep]:
    [Command: jobArgs[0]], [Args: jobArgs[1:]] when [len(jobArgs) == 2]. *)
Definition control_arg0 (jobArgs : list string) : M Job :=
  a0 ← index jobArgs 0;
  mret (mk_job CONTROL (Command a0 (tail_if (Nat.eqb (length jobArgs) 2) jobArgs))).

(** [case "shellcode"] *)
Definition shellcode_case (jobArgs : list string) : M Job :=
  m ← index jobArgs 0;
  if String.eqb m "self" then
    b ← index jobArgs 1;
    mret (mk_job SHELLCODE (Shellcode m 0 b))
  else if String.eqb m "remote" || String.eqb m "rtlcreateuserthread"
          || String.eqb m "userapc" then
    a1 ← index jobArgs 1;
    match Atoi a1 with
    | None => throw (ErrAtoi a1)
    | Some i =>
        b ← index jobArgs 2;
        mret (mk_job SHELLCODE (Shellcode m (Z.to_N (i mod 2 ^ 32)) b))
    end
  else mret (mk_job SHELLCODE (Shellcode m 0 "")).

(** [case "load-assembly"]: the raw digest is appended to the arguments. *)
Definition load_assembly_case (jobType : string) (jobArgs : list string)
  : M (Job * list string) :=
  if Nat.ltb (length jobArgs) 1 then throw (ErrArgs jobType) else
  a0 ← index jobArgs 0;
  r ← OS.ReadFile a0;
  match r with
  | None => throw (ErrRead a0)
  | Some assembly =>
      name ← (if Nat.ltb 1 (length jobArgs) then index jobArgs 1
              else mret (FilePath.Base a0));
      let jobArgs' := jobArgs ++ [SHA256.sum assembly] in
      mret (mk_job MODULE
              (Command "clr" [jobType; Base64.EncodeToString assembly; name]),
            jobArgs')
  end.

(** [case "memfd"] *)
Definition memfd_case (jobType : string) (jobArgs : list string) : M Job :=
  if Nat.ltb (length jobArgs) 1 then throw (ErrArgs jobType) else
  a0 ← index jobArgs 0;
  r ← OS.ReadFile a0;
  match r with
  | None => throw (ErrRead a0)
  | Some executable =>
      mret (mk_job MODULE
              (Command jobType (Base64.EncodeToString executable :: tl jobArgs)))
  end.

(** [case "upload"]: [jobArgs[2]] becomes the raw digest and [jobArgs[3]]
    the decimal size, overwritten when present and appended otherwise. *)
Definition upload_case (jobArgs : list string) : M (Job * list string) :=
  if Nat.ltb (length jobArgs) 2 then throw (ErrArgs "upload") else
  a0 ← index jobArgs 0;
  r ← OS.ReadFile a0;
  match r with
  | None => throw (ErrRead a0)
  | Some uploadFile =>
      let h := SHA256.sum uploadFile in
      let args1 := if Nat.ltb 2 (length jobArgs) then <[2%nat := h]> jobArgs
                   else jobArgs ++ [h] in
      let sz := Bytes.dec (String.length uploadFile) in
      let args2 := if Nat.ltb 3 (length args1) then <[3%nat := sz]> args1
                   else args1 ++ [sz] in
      a1 ← index args2 1;
      mret (mk_job FILETRANSFER
              (FileTransfer a1 (Base64.EncodeToString uploadFile) true), args2)
  end.

(** The [switch jobType] of [Service.Add]: the built job (type and payload)
    and the argument vector handed on to [AddJobChannel]. *)
Definition add_switch (jobType : string) (jobArgs : list string)
  : M (Job * list string) :=
  let same (m : M Job) : M (Job * list string) := j ← m; mret (j, jobArgs) in
  let is k := String.eqb jobType k in
  if is "agentInfo" then same (mret (mk_job CONTROL (Command "agentInfo" [])))
  else if is "download" then
    same (a0 ← index jobArgs 0; mret (mk_job FILETRANSFER (FileTransfer a0 "" false)))
  else if is "cd" then same (mret (mk_job NATIVE (Command "cd" jobArgs)))
  else if is "changelistener" then
    same (a0 ← index jobArgs 0;
          mret (mk_job CONTROL (Command a0 (tail_if (Nat.leb 2 (length jobArgs)) jobArgs))))
  else if is "CreateProcess" then same (mret (mk_job MODULE (Command jobType jobArgs)))
  else if is "env" then same (mret (mk_job NATIVE (Command jobType jobArgs)))
  else if is "exit" then same (a0 ← index jobArgs 0; mret (mk_job CONTROL (Command a0 [])))
  else if is "ifconfig" then same (mret (mk_job NATIVE (Command jobType [])))
  else if is "initialize" then same (mret (mk_job CONTROL (Command jobType [])))
  else if is "invoke-assembly" then
    if Nat.ltb (length jobArgs) 1 then throw (ErrArgs jobType)
    else same (mret (mk_job MODULE (Command "clr" (jobType :: jobArgs))))
  else if is "ja3" then same (control_arg0 jobArgs)
  else if is "killdate" then same (control_arg0 jobArgs)
  else if is "killprocess" then same (mret (mk_job NATIVE (Command "killprocess" jobArgs)))
  else if is "link" then same (mret (mk_job MODULE (Command "link" jobArgs)))
  else if is "listener" then same (mret (mk_job MODULE (Command "listener" jobArgs)))
  else if is "list-assemblies" then
    same (mret (mk_job MODULE (Command "clr" ["list-assemblies"])))
  else if is "load-assembly" then load_assembly_case jobType jobArgs
  else if is "load-clr" then
    if Nat.ltb (length jobArgs) 1 then throw (ErrArgs jobType)
    else same (mret (mk_job MODULE (Command "clr" (jobType :: jobArgs))))
  else if is "ls" then
    same (mret (mk_job NATIVE (Command "ls"
            (if Nat.ltb 0 (length jobArgs) then jobArgs else ["./"]))))
  else if is "maxretry" then same (control_arg0 jobArgs)
  else if is "memory" then same (mret (mk_job MODULE (Command jobType jobArgs)))
  else if is "memfd" then same (memfd_case jobType jobArgs)
  else if is "Minidump" then same (mret (mk_job MODULE (Command jobType jobArgs)))
  else if is "netstat" then same (mret (mk_job MODULE (Command jobType jobArgs)))
  else if is "nslookup" then same (mret (mk_job NATIVE (Command jobType jobArgs)))
  else if is "padding" then same (control_arg0 jobArgs)
  else if is "pipes" then same (mret (mk_job MODULE (Command "pipes" [])))
  else if is "ps" then same (mret (mk_job MODULE (Command "ps" [])))
  else if is "pwd" then same (a0 ← index jobArgs 0; mret (mk_job NATIVE (Command a0 [])))
  else if is "rm" then
    (* jobArgs[0:1]: Go checks the bound against the capacity; the argument
       slice is taken with a capacity equal to its length *)
    if Nat.ltb (length jobArgs) 1 then panic "slice bounds out of range"
    else same (mret (mk_job NATIVE (Command jobType (firstn 1 jobArgs))))
  else if is "run" || is "exec" then
    same (a0 ← index jobArgs 0;
          mret (mk_job CMD (Command a0 (tail_if (Nat.ltb 1 (length jobArgs)) jobArgs))))
  else if is "runas" then same (mret (mk_job MODULE (Command jobType jobArgs)))
  else if is "sdelete" then same (mret (mk_job NATIVE (Command jobType jobArgs)))
  else if is "shell" then same (mret (mk_job CMD (Command jobType jobArgs)))
  else if is "shellcode" then same (shellcode_case jobArgs)
  else if is "skew" then same (control_arg0 jobArgs)
  else if is "sleep" then same (control_arg0 jobArgs)
  else if is "ssh" then same (mret (mk_job MODULE (Command jobType jobArgs)))
  else if is "token" then same (mret (mk_job MODULE (Command jobType jobArgs)))
  else if is "touch" then same (mret (mk_job NATIVE (Command jobType jobArgs)))
  else if is "unlink" then same (mret (mk_job MODULE (Command "unlink" jobArgs)))
  else if is "upload" then upload_case jobArgs
  else if is "uptime" then same (mret (mk_job MODULE (Command "uptime" [])))
  else throw ErrInvalidJobType.

(* ===================================================================== *)
(** ** [buildJob], [AddJobChannel] and [Add] (job.go, lines 471-600) *)
(* ===================================================================== *)

(** [fmt.Sprintf("%+v", payload)], used only by the [default] branch. *)
Definition render_payload (p : Payload) : string :=
  match p with
  | Command c a => "{Command:" +++ c +++ " Args:[" +++ Bytes.join " " a +++ "]}"
  | FileTransfer l _ d => "{FileLocation:" +++ l +++ (if d then " IsDownload:true}" else " IsDownload:false}")
  | Shellcode m _ _ => "{Method:" +++ m +++ "}"
  | Socks i _ _ _ => "{ID:" +++ i +++ "}"
  | Results o e => "{Stdout:" +++ o +++ " Stderr:" +++ e +++ "}"
  | AgentInfo i => "{" +++ i +++ "}"
  | NoPayload => "<nil>"
  end.

(** Joined arguments truncated to 30 bytes with a trailing ellipsis. *)
Definition truncate30 (args : list string) : string :=
  let a := Bytes.join " " args in
  if Nat.ltb 30 (String.length a) then Bytes.prefix 30 a +++ "..." else a.

(** The [switch job.Type] of [buildJob] computing the summary [command]. *)
Definition build_command (agent : N) (job : Job) (jobArgs : list string) : M string :=
  match job_type job with
  | CONTROL | MODULE | NATIVE =>
      match job_payload job with
      | Command c cargs =>
          (if decide (job_type job = MODULE) then
             if String.eqb (ToLower c) "clr" then
               a0 ← index cargs 0;
               if String.eqb (ToLower a0) "load-assembly" then
                 if Nat.ltb 2 (length jobArgs) then
                   j0 ← index jobArgs 0; j2 ← index jobArgs 2;
                   agent_Log agent ("loading assembly from " +++ j0 +++ " with a SHA256: "
                                    +++ j2 +++ " to agent")
                 else mret tt
               else mret tt
             else mret tt
           else mret tt) ;;
          mret (c +++ " " +++ truncate30 cargs)
      | _ => panic "interface conversion: payload is not jobs.Command"
      end
  | CMD =>
      match job_payload job with
      | Command c cargs =>
          let args := truncate30 cargs in
          if String.eqb (ToLower c) "shell" then mret (TrimSpace (c +++ " " +++ args))
          else mret (TrimSpace ("run " +++ c +++ " " +++ args))
      | _ => panic "interface conversion: payload is not jobs.Command"
      end
  | FILETRANSFER =>
      match job_payload job with
      | FileTransfer _ _ is_download =>
          if is_download then
            if Nat.ltb 2 (length jobArgs) then
              j0 ← index jobArgs 0; j3 ← index jobArgs 3;
              j2 ← index jobArgs 2; j1 ← index jobArgs 1;
              agent_Log agent ("Uploading file from server at " +++ j0 +++ " of size " +++ j3
                               +++ " bytes and SHA-256: " +++ Hex.encode j2
                               +++ " to agent at " +++ j1) ;;
              mret ("upload " +++ j0 +++ " " +++ j1)
            else mret ""
          else
            if Nat.ltb 0 (length jobArgs) then
              j0 ← index jobArgs 0;
              agent_Log agent ("Downloading file from agent at " +++ j0 +++ String "010"%char "") ;;
              mret ("download " +++ j0)
            else mret ""
      | _ => panic "interface conversion: payload is not jobs.FileTransfer"
      end
  | SHELLCODE =>
      match job_payload job with
      | Shellcode m pid b =>
          mret ("shellcode " +++ m +++ " " +++ Bytes.dec (N.to_nat pid) +++ " length "
                +++ Bytes.dec (String.length b))
      | _ => panic "interface conversion: payload is not jobs.Shellcode"
      end
  | SOCKS =>
      match job_payload job with
      | Socks sid idx _ _ =>
          mret ("SOCKS connection " +++ sid +++ " packet " +++ Bytes.dec (Z.to_nat idx))
      | _ => panic "interface conversion: payload is not jobs.Socks"
      end
  | _ =>
      Printf ("DEFAULT" +++ String "010"%char "") ;;
      mret (type_string (job_type job) +++ " " +++ render_payload (job_payload job))
  end.

(** [buildJob(agentID, job *jobs.Job, jobArgs)]. The job is passed by
    pointer: the returned job is the pointee after the call (AgentID set,
    Token and ID filled in only when still unset). *)
Definition buildJob (agentID : N) (job : Job) (jobArgs : list string) : M Job :=
  fun s =>
    match Agent agentID s with
    | (ROk _, s1) =>
        (let job1 := {| job_agent := agentID; job_id := job_id job;
                        job_token := job_token job; job_type := job_type job;
                        job_payload := job_payload job |} in
         command ← build_command agentID job1 jobArgs;
         jobInfo ← NewInfo agentID (type_string (job_type job1)) command;
         let tok := if N.eqb (job_token job1) uuid_nil then info_token jobInfo
                    else job_token job1 in
         let jid := if String.eqb (job_id job1) "" then info_id jobInfo
                    else job_id job1 in
         let job2 := {| job_agent := agentID; job_id := jid; job_token := tok;
                        job_type := job_type job1; job_payload := job_payload job1 |} in
         (* the error returned by the repository is discarded *)
         _ ← Repo.Add job2 jobInfo;
         agent_Log agentID ("Created job Type:" +++ type_string (job_type job2)
                            +++ ", ID:" +++ job_id job2 +++ ", Status:Created, Command:"
                            +++ command) ;;
         mret job2) s1
    | (_, s1) => (RErr (ErrBuildUnknownAgent agentID), s1)
    end.

Definition broadcast_id : string := "ffffffff-ffff-ffff-ffff-ffffffffffff".

(** The [for _, a := range agents] loop of [AddJobChannel]: the same job
    pointer is passed to every [buildJob] call. *)
Fixpoint broadcast_loop (agents : list N) (job : Job) (jobArgs : list string)
  (results : string) : M (Job * string) :=
  match agents with
  | [] => mret (job, results)
  | a :: rest =>
      job' ← buildJob a job jobArgs;
      now ← Now;
      broadcast_loop rest job' jobArgs
        (results +++ String "010"%char (String "009"%char
          ("Created job " +++ job_id job' +++ " for agent " +++ uuid_string a
           +++ " at " +++ fmt_time now)))
  end.

(** [AddJobChannel(agentID, job, jobArgs)]; an error carries no partial
    results in this model. *)
Definition AddJobChannel (agentID : N) (job : Job) (jobArgs : list string) : M string :=
  agents ← gets st_agents;
  if String.eqb (uuid_string agentID) broadcast_id then
    if Nat.leb (length agents) 0 then throw ErrNoAgents
    else
      '(_, results) ← broadcast_loop agents job jobArgs
        ("Creating jobs for all agents through broadcast identifier " +++ broadcast_id);
      mret results
  else
    job' ← buildJob agentID job jobArgs;
    now ← Now;
    mret ("Created job " +++ job_id job' +++ " for agent " +++ uuid_string agentID
          +++ " at " +++ fmt_time now).

(** [Service.Add(agentID, jobType, jobArgs)] *)
Definition Add (agentID : N) (jobType : string) (jobArgs : list string) : M string :=
  '(job, jobArgs') ← add_switch jobType jobArgs;
  AddJobChannel agentID job jobArgs'.

(* ===================================================================== *)
(** ** The dispatcher: [checkJob], [fileTransfer], [Handler] *)
(* ===================================================================== *)

(** [checkJob(job) error] (job.go, lines 603-623) *)
Definition checkJob (job : Job) : M (option error) :=
  ex ← gets (Exist (job_agent job));
  if negb ex then mret (Some (ErrCheckInvalidAgent (job_id job) (job_agent job))) else
  oj ← Repo.GetInfo (job_id job);
  match oj with
  | None => mret (Some (ErrCheck (ErrNotFound (job_id job))))
  | Some j =>
      if negb (N.eqb (job_token job) (info_token j)) then
        mret (Some (ErrToken (job_id job) (info_token j) (job_token job)))
      else if decide (info_status j = COMPLETE) then mret (Some (ErrCompleted (job_id job)))
      else if decide (info_status j = CANCELED) then mret (Some (ErrCanceled (job_id job)))
      else mret None
  end.

(** The text of the [fileTransfer] error messages that are logged. *)
Definition error_text (e : error) : string :=
  match e with
  | ErrLocateDir => "there was an error locating the agent's directory"
  | ErrDecodeBlob => "there was an error decoding the fileBlob"
  | ErrWriting l => "there was an error writing to -> " +++ l
  | _ => "error"
  end.

(** Log an error against the agent and return it (or both errors). *)
Definition log_and_fail {A} (agentID : N) (e : error) : M A :=
  le ← service_Log agentID (error_text e);
  match le with
  | Some e2 => throw (ErrTwo e e2)
  | None => throw e
  end.

(** [fileTransfer(agentID, p) error] (job.go, lines 636-699) *)
Definition fileTransfer (agentID : N) (location blob : string) (is_download : bool)
  : M unit :=
  ex ← gets (Exist agentID);
  if negb ex then throw (ErrNotValidAgent agentID) else
  if is_download then
    cwd ← gets st_cwd;
    let agentsDir := FilePath.Join [cwd; "data"; "agents"] in
    let f := snd (FilePath.Split location) in
    found ← OS.Stat_exists agentsDir;
    if negb found then log_and_fail agentID ErrLocateDir else
    now ← Now;
    SendBroadcastMessage Success ("Results for " +++ uuid_string agentID +++ " at "
                                  +++ fmt_time now) ;;
    match Base64.DecodeString blob with
    | None => log_and_fail agentID ErrDecodeBlob
    | Some downloadBlob =>
        let downloadFile := FilePath.Join [agentsDir; uuid_string agentID; f] in
        we ← OS.WriteFile downloadFile downloadBlob 384 (* 0600 *);
        match we with
        | Some _ => log_and_fail agentID (ErrWriting location)
        | None =>
            let successMessage :=
              "Successfully downloaded file " +++ location +++ " with a size of "
              +++ Bytes.dec (String.length downloadBlob) +++ " bytes from agent "
              +++ uuid_string agentID +++ " to " +++ downloadFile in
            SendBroadcastMessage Success successMessage ;;
            le ← service_Log agentID successMessage;
            match le with
            | Some e => throw e
            | None => mret tt
            end
        end
    end
  else mret tt.

(** The [switch job.Type] dispatch of [Handler]. *)
Definition dispatch (agent : N) (job : Job) : M unit :=
  match job_type job with
  | RESULT =>
      agent_Log agent ("Results for job: " +++ job_id job) ;;
      now ← Now;
      SendBroadcastMessage Note ("Results job " +++ job_id job +++ " for agent "
                                 +++ uuid_string (job_agent job) +++ " at " +++ fmt_time now) ;;
      match job_payload job with
      | Results out err =>
          (if Nat.ltb 0 (String.length out) then
             agent_Log agent ("Command Results (stdout):" +++ String "013"%char
                              (String "010"%char out)) ;;
             SendBroadcastMessage Success out
           else mret tt) ;;
          (if Nat.ltb 0 (String.length err) then
             agent_Log agent ("Command Results (stderr):" +++ String "013"%char
                              (String "010"%char err)) ;;
             SendBroadcastMessage Warn err
           else mret tt)
      | _ => panic "interface conversion: payload is not jobs.Results"
      end
  | AGENTINFO =>
      match job_payload job with
      | AgentInfo i =>
          e ← UpdateAgentInfo (job_agent job) i;
          match e with Some e => throw e | None => mret tt end
      | _ => panic "interface conversion: payload is not messages.AgentInfo"
      end
  | FILETRANSFER =>
      match job_payload job with
      | FileTransfer l b d => fileTransfer (job_agent job) l b d
      | _ => panic "interface conversion: payload is not jobs.FileTransfer"
      end
  | SOCKS => socks_In job
  | _ => mret tt
  end.

(** The status update of [Handler] (job.go, lines 862-870). *)
Definition advance (job : Job) (jobInfo : Info) : M Info :=
  now ← Now;
  if decide (job_type job = SOCKS) then
    match job_payload job with
    | Socks _ _ _ close =>
        if close then mret (Info_Complete now jobInfo) else mret (Info_Active jobInfo)
    | _ => panic "interface conversion: payload is not jobs.Socks"
    end
  else mret (Info_Complete now jobInfo).

(** Lines 816-874 of [Handler]: dispatch, then advance and persist the status. *)
Definition complete_job (agent : N) (job : Job) (jobInfo : Info) : M unit :=
  dispatch agent job ;;
  info' ← advance job jobInfo;
  ue ← Repo.UpdateInfo info';
  match ue with
  | Some e => throw (ErrHandler e)
  | None => mret tt
  end.

(** The body of the [for _, job := range agentJobs] loop of [Handler]. *)
Definition handle_job (job : Job) : M unit :=
  ex ← gets (Exist (job_agent job));
  if (ex : bool) then
    agent ← Agent (job_agent job);
    oi ← Repo.GetInfo (job_id job);
    match oi with
    | None => throw (ErrHandler (ErrNotFound (job_id job)))
    | Some jobInfo =>
        ce ← checkJob job;
        (match ce with
         | Some e =>
             if negb (bool_decide (job_type job = RESULT)) then throw e
             else
               dbg ← gets st_debug;
               if (dbg : bool) then Printf ("Received " +++ type_string (job_type job)
                                   +++ " message without job token")
               else mret tt
         | None => mret tt
         end) ;;
        complete_job agent job jobInfo
    end
  else
    SendBroadcastMessage Warn ("Job " +++ job_id job +++ " was for an invalid agent "
                               +++ uuid_string (job_agent job)).

(** [Handler(agentJobs) error] (job.go, lines 788-885) *)
Fixpoint Handler (agentJobs : list Job) : M unit :=
  match agentJobs with
  | [] => mret tt
  | job :: rest => handle_job job ;; Handler rest
  end.

(* ===================================================================== *)
(** ** [NewJobService] (job.go, lines 55-68) *)
(* ===================================================================== *)

Module Factory.

(** Process state seen by the factory: the package variable [memoryService]
    (a pointer, [None] for nil), the next free heap address, and the
    goroutines running [socksJobs], by the service they run on. *)
Record Proc := {
  memoryService : option nat;
  next_ptr : nat;
  socks_workers : list nat;
}.

(** [NewJobService()]: allocate the service when [memoryService] is nil,
    start [go memoryService.socksJobs()], return [memoryService]. *)
Definition NewJobService (p : Proc) : nat * Proc :=
  let p1 := match memoryService p with
            | Some _ => p
            | None => {| memoryService := Some (next_ptr p); next_ptr := S (next_ptr p);
                         socks_workers := socks_workers p |}
            end in
  let svc := default 0%nat (memoryService p1) in
  (svc, {| memoryService := memoryService p1; next_ptr := next_ptr p1;
           socks_workers := socks_workers p1 ++ [svc] |}).

Definition init : Proc := {| memoryService := None; next_ptr := 1; socks_workers := [] |}.

(** [n] successive calls from the initial process state. *)
Fixpoint calls (n : nat) (p : Proc) : list nat * Proc :=
  match n with
  | O => ([], p)
  | S k => let '(v, p1) := NewJobService p in
           let '(vs, p2) := calls k p1 in (v :: vs, p2)
  end.

End Factory.

(* ===================================================================== *)
(** ** Concrete scenarios *)
(* ===================================================================== *)

Module Scenario.

Definition A : N := 1.
Definition B : N := 2.

Definition agent_dir : string := "/srv/merlin/data/agents/" +++ uuid_string A.

Definition mk_info (id : string) (agent : N) (typ : string) (tok : N) (st : Status) : Info :=
  {| info_id := id; info_agent := agent; info_type := typ; info_command := "";
     info_token := tok; info_status := st; info_created := 10; info_sent := 20;
     info_completed := 0 |}.

(** Two known agents; three jobs already sent to agent A; the server-side
    data directory of agent A exists; a five-byte file "hello" at /tmp/x. *)
Definition s0 : St := {|
  st_agents := [A; B];
  st_queues := ∅;
  st_infos := {[ "J" := mk_info "J" A "CMD" 7 SENT;
                 "K" := mk_info "K" A "FILETRANSFER" 9 SENT;
                 "S" := mk_info "S" A "SOCKS" 11 SENT ]};
  st_alog := []; st_bcast := [];
  st_dirs := {[ "/srv/merlin/data/agents"; agent_dir ]};
  st_files := {[ "/tmp/x" := ("hello", 420%N) ]};
  st_cwd := "/srv/merlin"; st_debug := false; st_stdout := [];
  st_socks_in := []; st_agent_infos := []; st_now := 100; st_next_uuid := 1000 |}.

Definition result_job (id : string) (tok : N) (out : string) : Job :=
  {| job_agent := A; job_id := id; job_token := tok; job_type := RESULT;
     job_payload := Results out "" |}.

Definition ft_job (loc blob : string) (dl : bool) : Job :=
  {| job_agent := A; job_id := "K"; job_token := 9; job_type := FILETRANSFER;
     job_payload := FileTransfer loc blob dl |}.

Definition socks_job (close : bool) : Job :=
  {| job_agent := A; job_id := "S"; job_token := 11; job_type := SOCKS;
     job_payload := Socks "S" 0 "" close |}.

End Scenario.

(* ===================================================================== *)
(** ** Job tables: [GetTableActive], [GetTableAll] (job.go, lines 706-786) *)
(* ===================================================================== *)

(** [job.Sent()], formatted unless it is the zero time. *)
Definition sent_column (i : Info) : string :=
  if N.eqb (info_sent i) 0 then "" else fmt_time (info_sent i).

(** The rows of [GetTableActive] and [GetTableAll] range over
    [s.jobRepo.GetAll()], a Go map: its iteration order is unspecified, and
    [map_to_list] stands for one such order. [status_code] is the integer
    value of a [jobs.Status] constant, printed by the [default] branches;
    pkg/jobs is not under src/, so the numbering is left as a parameter. *)
Section Tables.

Variable status_code : Status -> N.

Definition unknown_status (st : Status) : string :=
  "Unknown job status: " +++ Bytes.dec (N.to_nat (status_code st)).

(** The [switch job.Status()] of [GetTableActive]. *)
Definition active_label (st : Status) : string :=
  match st with
  | ACTIVE => "Active"
  | CREATED => "Created"
  | SENT => "Sent"
  | RETURNED => "Returned"
  | _ => unknown_status st
  end.

(** The [switch job.Status()] of [GetTableAll] (it has no ACTIVE case). *)
Definition all_label (st : Status) : string :=
  match st with
  | CREATED => "Created"
  | SENT => "Sent"
  | RETURNED => "Returned"
  | _ => unknown_status st
  end.

Definition live (st : Status) : bool :=
  negb (bool_decide (st = COMPLETE)) && negb (bool_decide (st = CANCELED)).

(** The loop of [GetTableActive] over the entries, in iteration order. *)
Fixpoint active_rows (agentID : N) (entries : list (string * Info)) : list (list string) :=
  match entries with
  | [] => []
  | (id, job) :: rest =>
      (if N.eqb (info_agent job) agentID && live (info_status job)
       then [[id; info_command job; active_label (info_status job);
              fmt_time (info_created job); sent_column job]]
       else []) ++ active_rows agentID rest
  end.

(** [GetTableActive(agentID) ([][]string, error)]; on the error the rows are nil. *)
Definition GetTableActive (agentID : N) : M (list (list string)) :=
  ex ← gets (Exist agentID);
  if negb ex then throw (ErrNotValidAgent agentID) else
  entries ← gets (fun s => map_to_list (st_infos s));
  mret (active_rows agentID entries).

(** The loop of [GetTableAll]. *)
Fixpoint all_rows (entries : list (string * Info)) : list (list string) :=
  match entries with
  | [] => []
  | (id, job) :: rest =>
      (if live (info_status job)
       then [[uuid_string (info_agent job); id; info_command job;
              all_label (info_status job); fmt_time (info_created job); sent_column job]]
       else []) ++ all_rows rest
  end.

(** [GetTableAll() [][]string] *)
Definition GetTableAll : M (list (list string)) :=
  entries ← gets (fun s => map_to_list (st_infos s));
  mret (all_rows entries).

End Tables.

(* ===================================================================== *)
(** ** The SOCKS worker: [socksJobs] (job.go, lines 887-898) *)
(* ===================================================================== *)

(** An error returned by [m], as a value. *)
Definition catch {A} (m : M A) : M (A + error) :=
  fun s => match m s with
           | (ROk a, s') => (ROk (inl a), s')
           | (RErr e, s') => (ROk (inr e), s')
           | (RPanic p, s') => (RPanic p, s')
           end.

(** [socksJobs()] over the jobs received so far on [socks.JobsOut]: each is
    built with [buildJob(job.AgentID, &job, nil)]; the error of a failed build
    is sent to [cli.MessageChannel] (returned here, in order) and the loop
    goes on. *)
Fixpoint socksJobs (incoming : list Job) : M (list error) :=
  match incoming with
  | [] => mret []
  | job :: rest =>
      r ← catch (buildJob (job_agent job) job []);
      msgs ← socksJobs rest;
      mret (match r with inr e => e :: msgs | inl _ => msgs end)
  end.

(* ===================================================================== *)
(** * Properties *)
(* ===================================================================== *)

Arguments Exist : simpl never.
Arguments uuid_string : simpl never.
Arguments type_string : simpl never.
Arguments fmt_time : simpl never.

(** The repository is well formed when every record is stored under its own id
    (as [Repo.Add] and [Repo.UpdateInfo] store them). *)
Definition repo_wf (s : St) : Prop :=
  forall k i, st_infos s !! k = Some i -> info_id i = k.

Ltac mrun := unfold mbind, M_bind, mret, M_ret, gets, modify, throw in *; cbv beta iota zeta in *.

Lemma repo_add_wf (j : Job) (i : Info) (s : St) :
  repo_wf s -> repo_wf (snd (Repo.Add j i s)).
Proof.
  unfold Repo.Add, repo_wf. intros Hwf k i'.
  destruct (st_infos s !! info_id i) eqn:E; simpl; [apply Hwf|].
  rewrite lookup_insert. case_decide as Hk; [intros Hx; inversion Hx; subst; auto | apply Hwf].
Qed.

Lemma repo_update_wf (i : Info) (s : St) :
  repo_wf s -> repo_wf (snd (Repo.UpdateInfo i s)).
Proof.
  unfold Repo.UpdateInfo, repo_wf. intros Hwf k i'.
  destruct (st_infos s !! info_id i) eqn:E; simpl; [|apply Hwf].
  rewrite lookup_insert. case_decide as Hk; [intros Hx; inversion Hx; subst; auto | apply Hwf].
Qed.

(** [checkJob] only reads the state. *)
Lemma checkJob_state (j : Job) (s : St) : exists r, checkJob j s = (ROk r, s).
Proof.
  unfold checkJob, Repo.GetInfo. mrun.
  destruct (Exist (job_agent j) s); simpl; [|eauto].
  destruct (st_infos s !! job_id j) as [i|]; simpl; [|eauto].
  destruct (job_token j =? info_token i)%N; simpl; [|eauto].
  destruct (decide (info_status i = COMPLETE)); [eauto|].
  destruct (decide (info_status i = CANCELED)); eauto.
Qed.

Lemma checkJob_token (j : Job) (s : St) (i : Info) :
  Exist (job_agent j) s = true -> st_infos s !! job_id j = Some i ->
  job_token j <> info_token i ->
  checkJob j s = (ROk (Some (ErrToken (job_id j) (info_token i) (job_token j))), s).
Proof.
  intros He Hi Ht. unfold checkJob, Repo.GetInfo. mrun.
  rewrite He. simpl. rewrite Hi. simpl. apply N.eqb_neq in Ht. now rewrite Ht.
Qed.

Lemma checkJob_completed (j : Job) (s : St) (i : Info) :
  Exist (job_agent j) s = true -> st_infos s !! job_id j = Some i ->
  job_token j = info_token i -> info_status i = COMPLETE ->
  checkJob j s = (ROk (Some (ErrCompleted (job_id j))), s).
Proof.
  intros He Hi Ht Hs. unfold checkJob, Repo.GetInfo. mrun.
  rewrite He. simpl. rewrite Hi. simpl. rewrite Ht, N.eqb_refl. simpl.
  destruct (decide (info_status i = COMPLETE)); [reflexivity | contradiction].
Qed.

Lemma checkJob_ok_token (j : Job) (s : St) (i : Info) :
  Exist (job_agent j) s = true -> st_infos s !! job_id j = Some i ->
  checkJob j s = (ROk None, s) -> job_token j = info_token i.
Proof.
  intros He Hi. unfold checkJob, Repo.GetInfo. mrun.
  rewrite He. simpl. rewrite Hi. simpl.
  destruct (job_token j =? info_token i)%N eqn:E; simpl; intros Hc;
    [now apply N.eqb_eq | discriminate].
Qed.

(** *** Frame: operations that leave the job records, the clock and the agent
    directory alone. *)

Definition frame {A} (m : M A) : Prop :=
  forall s, st_infos (snd (m s)) = st_infos s /\ st_now (snd (m s)) = st_now s
            /\ st_agents (snd (m s)) = st_agents s.

Create HintDb frame.

Lemma frame_ret {A} (a : A) : frame (mret a).
Proof. intros s. auto. Qed.

Lemma frame_bind {A B} (m : M A) (k : A -> M B) :
  frame m -> (forall a, frame (k a)) -> frame (mbind k m).
Proof.
  intros Hm Hk s. unfold mbind, M_bind.
  destruct (Hm s) as (H1 & H2 & H3).
  destruct (m s) as [[a|e|p] s1]; simpl in *; auto.
  destruct (Hk a s1) as (H4 & H5 & H6). rewrite H4, H5, H6; auto.
Qed.

Lemma frame_throw {A} e : frame (A:=A) (throw e).
Proof. intros s. auto. Qed.

Lemma frame_panic {A} msg : frame (A:=A) (panic msg).
Proof. intros s. auto. Qed.

Lemma frame_gets {A} (f : St -> A) : frame (gets f).
Proof. intros s. auto. Qed.

Lemma frame_Agent a : frame (Agent a).
Proof. intros s. unfold Agent. destruct (Exist a s); auto. Qed.

Lemma frame_agent_Log a msg : frame (agent_Log a msg).
Proof. intros s. auto. Qed.

Lemma frame_service_Log a msg : frame (service_Log a msg).
Proof. intros s. unfold service_Log. destruct (Exist a s); auto. Qed.

Lemma frame_UpdateAgentInfo a i : frame (UpdateAgentInfo a i).
Proof. intros s. unfold UpdateAgentInfo. destruct (Exist a s); auto. Qed.

Lemma frame_SendBroadcastMessage l msg : frame (SendBroadcastMessage l msg).
Proof. intros s. auto. Qed.

Lemma frame_socks_In j : frame (socks_In j).
Proof. intros s. auto. Qed.

Lemma frame_Printf msg : frame (Printf msg).
Proof. intros s. auto. Qed.

Lemma frame_Now : frame Now.
Proof. intros s. auto. Qed.

Lemma frame_Stat p : frame (OS.Stat_exists p).
Proof. intros s. auto. Qed.

Lemma frame_WriteFile n d p : frame (OS.WriteFile n d p).
Proof.
  intros s. unfold OS.WriteFile.
  destruct (bool_decide _); [auto|]. destruct (bool_decide _); auto.
Qed.

Lemma frame_GetInfo id : frame (Repo.GetInfo id).
Proof. intros s. auto. Qed.

#[local] Hint Resolve frame_ret frame_throw frame_panic frame_gets frame_Agent
  frame_agent_Log frame_service_Log frame_UpdateAgentInfo frame_SendBroadcastMessage
  frame_socks_In frame_Printf frame_Now frame_Stat frame_WriteFile frame_GetInfo : frame.

Ltac solve_frame :=
  repeat (cbv zeta;
    match goal with
    | |- frame (mbind _ _) => apply frame_bind; [| intros ?]
    | |- frame (if ?b then _ else _) => destruct b
    | |- frame (match ?x with _ => _ end) => destruct x
    | |- frame _ => solve [eauto with frame]
    end).

Lemma frame_log_and_fail {A} a e : frame (A:=A) (log_and_fail a e).
Proof. unfold log_and_fail. solve_frame. Qed.

#[local] Hint Resolve frame_log_and_fail : frame.

Lemma frame_fileTransfer a l b d : frame (fileTransfer a l b d).
Proof. unfold fileTransfer. solve_frame. Qed.

#[local] Hint Resolve frame_fileTransfer : frame.

Lemma frame_dispatch a j : frame (dispatch a j).
Proof. unfold dispatch. solve_frame. Qed.

Lemma frame_checkJob j : frame (checkJob j).
Proof. unfold checkJob. solve_frame. Qed.

(** *** Unfolding the dispatcher *)

Lemma Handler_single (j : Job) (s : St) : Handler [j] s = handle_job j s.
Proof.
  unfold Handler. mrun. destruct (handle_job j s) as [[[]|e|p] s']; reflexivity.
Qed.

(** The state after the debug line printed for a tolerated RESULT. *)
Definition debug_state (j : Job) (s : St) : St :=
  if st_debug s then
    set_stdout (st_stdout s ++ ["Received " +++ type_string (job_type j)
                                +++ " message without job token"]) s
  else s.

Lemma handle_job_checked (j : Job) (s : St) (i : Info) (ce : option error) :
  Exist (job_agent j) s = true -> st_infos s !! job_id j = Some i ->
  checkJob j s = (ROk ce, s) ->
  handle_job j s =
    match ce with
    | Some e => if bool_decide (job_type j = RESULT)
                then complete_job (job_agent j) j i (debug_state j s)
                else (RErr e, s)
    | None => complete_job (job_agent j) j i s
    end.
Proof.
  intros He Hi Hc. unfold handle_job, Agent, Repo.GetInfo. mrun.
  rewrite He. simpl. rewrite He. simpl. rewrite Hi. simpl. rewrite Hc.
  destruct ce as [e|].
  - destruct (bool_decide (job_type j = RESULT)); simpl; [|reflexivity].
    unfold debug_state. destruct (st_debug s); reflexivity.
  - reflexivity.
Qed.

(** The status the dispatcher records for an accepted job. *)
Definition next_info (j : Job) (now : N) (i : Info) : Info :=
  match job_type j, job_payload j with
  | SOCKS, Socks _ _ _ true => Info_Complete now i
  | SOCKS, _ => Info_Active i
  | _, _ => Info_Complete now i
  end.

(** The payload of a SOCKS job is a [jobs.Socks] (the type assertion holds). *)
Definition socks_ok (j : Job) : Prop :=
  job_type j = SOCKS -> exists sid idx d c, job_payload j = Socks sid idx d c.

Lemma complete_job_ok (a : N) (j : Job) (i : Info) (s s1 : St) :
  repo_wf s -> st_infos s !! job_id j = Some i -> socks_ok j ->
  dispatch a j s = (ROk tt, s1) ->
  complete_job a j i s =
    (ROk tt, set_repo (st_queues s1)
                      (<[job_id j := next_info j (st_now s) i]> (st_infos s)) s1).
Proof.
  intros Hwf Hi Hso Hd.
  destruct (frame_dispatch a j s) as (F1 & F2 & _). rewrite Hd in F1, F2. simpl in F1, F2.
  assert (Hid : info_id i = job_id j) by (eapply Hwf; eauto).
  unfold complete_job, advance, Now, Repo.UpdateInfo. mrun. rewrite Hd.
  unfold next_info. rewrite F2.
  destruct (decide (job_type j = SOCKS)) as [Hs|Hs].
  - destruct (Hso Hs) as (sid & idx & d & c & Hp). rewrite Hp, Hs.
    destruct c; simpl; rewrite Hid, F1, Hi; reflexivity.
  - destruct (job_type j); try congruence; simpl; rewrite Hid, F1, Hi; reflexivity.
Qed.

Lemma debug_state_fields (j : Job) (s : St) :
  st_infos (debug_state j s) = st_infos s /\ st_now (debug_state j s) = st_now s /\
  st_alog (debug_state j s) = st_alog s /\ st_bcast (debug_state j s) = st_bcast s.
Proof. unfold debug_state. destruct (st_debug s); simpl; auto. Qed.

Lemma debug_state_wf (j : Job) (s : St) : repo_wf s -> repo_wf (debug_state j s).
Proof.
  unfold repo_wf. destruct (debug_state_fields j s) as (->&_). auto.
Qed.

(** Dispatching a RESULT logs it against the agent. *)
Lemma dispatch_result (a : N) (j : Job) (s : St) (o e : string) :
  job_type j = RESULT -> job_payload j = Results o e ->
  exists s1, dispatch a j s = (ROk tt, s1) /\
    st_alog s1 = st_alog s ++ [(a, "Results for job: " +++ job_id j)]
                 ++ (if Nat.ltb 0 (String.length o)
                     then [(a, "Command Results (stdout):" +++ String "013"%char (String "010"%char o))]
                     else [])
                 ++ (if Nat.ltb 0 (String.length e)
                     then [(a, "Command Results (stderr):" +++ String "013"%char (String "010"%char e))]
                     else []) /\
    (Nat.ltb 0 (String.length o) = true -> In (Success, o) (st_bcast s1)).
Proof.
  intros Ht Hp. unfold dispatch, agent_Log, SendBroadcastMessage, Now.
  rewrite Ht, Hp. mrun.
  destruct (Nat.ltb 0 (String.length o)); destruct (Nat.ltb 0 (String.length e));
    simpl; eexists; (split; [reflexivity|]); simpl;
    (split; [rewrite <- ?app_assoc; reflexivity|]); intros Hc; try discriminate;
    rewrite ?in_app_iff; simpl; tauto.
Qed.

(** The agent-log lines and the broadcasts of a dispatched RESULT. *)
Definition result_log (j : Job) (o e : string) : list (N * string) :=
  [(job_agent j, "Results for job: " +++ job_id j)]
  ++ (if Nat.ltb 0 (String.length o)
      then [(job_agent j, "Command Results (stdout):" +++ String "013"%char (String "010"%char o))]
      else [])
  ++ (if Nat.ltb 0 (String.length e)
      then [(job_agent j, "Command Results (stderr):" +++ String "013"%char (String "010"%char e))]
      else []).

Definition result_bcast (j : Job) (now : N) (o e : string) : list (Level * string) :=
  [(Note, "Results job " +++ job_id j +++ " for agent " +++ uuid_string (job_agent j)
          +++ " at " +++ fmt_time now)]
  ++ (if Nat.ltb 0 (String.length o) then [(Success, o)] else [])
  ++ (if Nat.ltb 0 (String.length e) then [(Warn, e)] else []).

Lemma dispatch_result_full (j : Job) (s : St) (o e : string) :
  job_type j = RESULT -> job_payload j = Results o e ->
  exists s1, dispatch (job_agent j) j s = (ROk tt, s1) /\
    st_alog s1 = st_alog s ++ result_log j o e /\
    st_bcast s1 = st_bcast s ++ result_bcast j (st_now s) o e.
Proof.
  intros Ht Hp.
  unfold dispatch, agent_Log, SendBroadcastMessage, Now, result_log, result_bcast.
  rewrite Ht, Hp. mrun.
  destruct (Nat.ltb 0 (String.length o)); destruct (Nat.ltb 0 (String.length e));
    simpl; eexists; (split; [reflexivity|]); simpl;
    split; rewrite <- ?app_assoc; reflexivity.
Qed.

(** A RESULT of a known agent whose id is on record is dispatched whatever
    [checkJob] says: logged, broadcast and marked COMPLETE. *)
Lemma handler_result_effects (j : Job) (s : St) (i : Info) (o e : string) :
  Exist (job_agent j) s = true -> repo_wf s -> st_infos s !! job_id j = Some i ->
  job_type j = RESULT -> job_payload j = Results o e ->
  exists s', Handler [j] s = (ROk tt, s') /\
    st_alog s' = st_alog s ++ result_log j o e /\
    st_bcast s' = st_bcast s ++ result_bcast j (st_now s) o e /\
    st_infos s' = <[job_id j := Info_Complete (st_now s) i]> (st_infos s).
Proof.
  intros He Hwf Hi Ht Hp. rewrite Handler_single.
  destruct (checkJob_state j s) as [ce Hc].
  rewrite (handle_job_checked j s i ce He Hi Hc).
  assert (Hso : socks_ok j) by (intros Hs; congruence).
  assert (Hn : forall now, next_info j now i = Info_Complete now i)
    by (intros now; unfold next_info; rewrite Ht; reflexivity).
  destruct ce as [err|].
  - rewrite bool_decide_true by exact Ht.
    destruct (debug_state_fields j s) as (D1 & D2 & D3 & D4).
    destruct (dispatch_result_full j (debug_state j s) o e Ht Hp) as (s1 & Hd & Hl & Hb).
    rewrite (complete_job_ok (job_agent j) j i (debug_state j s) s1
               (debug_state_wf j s Hwf) ltac:(rewrite D1; exact Hi) Hso Hd).
    eexists; split; [reflexivity|]. simpl. rewrite Hl, Hb, D3, D4, D2, D1, Hn. auto.
  - destruct (dispatch_result_full j s o e Ht Hp) as (s1 & Hd & Hl & Hb).
    rewrite (complete_job_ok (job_agent j) j i s s1 Hwf Hi Hso Hd).
    eexists; split; [reflexivity|]. simpl. rewrite Hl, Hb, Hn. auto.
Qed.

(* ===================================================================== *)
(** ** Token authentication *)
(* ===================================================================== *)

(** C1 (counterexample): a RESULT whose token (8) differs from the stored
    token (7) of job J is not rejected: Handler returns no error, the result
    is logged and broadcast at success level, and J becomes COMPLETE. *)
Lemma C1_result_bad_token_accepted :
  let r := Handler [Scenario.result_job "J" 8 "hi"] Scenario.s0 in
  fst r = ROk tt /\
  In (Success, "hi"%string) (st_bcast (snd r)) /\
  In (Scenario.A, "Results for job: J"%string) (st_alog (snd r)) /\
  option_map info_status (st_infos (snd r) !! "J"%string) = Some COMPLETE.
Proof. vm_compute. repeat split; auto 10. Qed.

(** C1 (amended): a token mismatch on an inbound job of a known agent whose
    id is on record makes Handler return the token error with the state
    entirely unchanged, unless the job is a RESULT: a RESULT is tolerated, the
    job and its non-empty stdout and stderr are logged against the agent, a
    note naming the job is broadcast followed by the non-empty stdout (success
    level) and stderr (warning level), and the record is marked COMPLETE. *)
Theorem handler_token_mismatch (j : Job) (s : St) (i : Info) :
  Exist (job_agent j) s = true ->
  st_infos s !! job_id j = Some i ->
  job_token j <> info_token i ->
  (job_type j <> RESULT ->
     Handler [j] s = (RErr (ErrToken (job_id j) (info_token i) (job_token j)), s)) /\
  (forall o e, job_type j = RESULT -> job_payload j = Results o e -> repo_wf s ->
     exists s', Handler [j] s = (ROk tt, s') /\
       st_infos s' !! job_id j = Some (Info_Complete (st_now s) i) /\
       st_alog s' = st_alog s ++ result_log j o e /\
       st_bcast s' = st_bcast s ++ result_bcast j (st_now s) o e).
Proof.
  intros He Hi Ht. split.
  - intros Hr. rewrite Handler_single.
    rewrite (handle_job_checked j s i _ He Hi (checkJob_token j s i He Hi Ht)).
    rewrite bool_decide_false by exact Hr. reflexivity.
  - intros o e Hr Hp Hwf.
    destruct (handler_result_effects j s i o e He Hwf Hi Hr Hp) as (s' & Hh & Hl & Hb & Hinf).
    exists s'. split; [exact Hh|]. split; [rewrite Hinf; apply lookup_insert_eq|]. auto.
Qed.

(** Witness of [handler_token_mismatch]: job J of agent A holds token 7. *)
Lemma handler_token_mismatch_witness :
  Handler [{| job_agent := Scenario.A; job_id := "J"; job_token := 8;
              job_type := CMD; job_payload := Command "id" [] |}] Scenario.s0
    = (RErr (ErrToken "J" 7 8), Scenario.s0).
Proof.
  apply (handler_token_mismatch
           {| job_agent := Scenario.A; job_id := "J"; job_token := 8;
              job_type := CMD; job_payload := Command "id" [] |}
           Scenario.s0 (Scenario.mk_info "J" Scenario.A "CMD" 7 SENT));
    [vm_compute; reflexivity | vm_compute; reflexivity | simpl; lia | discriminate].
Defined.

(** *** Inverting a successful dispatch *)

Lemma complete_job_inv (a : N) (j : Job) (i : Info) (s s' : St) :
  repo_wf s -> st_infos s !! job_id j = Some i ->
  complete_job a j i s = (ROk tt, s') ->
  st_infos s' = <[job_id j := next_info j (st_now s) i]> (st_infos s) /\
  st_agents s' = st_agents s.
Proof.
  intros Hwf Hi H.
  destruct (frame_dispatch a j s) as (_ & _ & F3).
  destruct (dispatch a j s) as [[[]|e|p] s1] eqn:Hd.
  - assert (Hso : socks_ok j).
    { intros Hs. destruct (job_payload j) eqn:Hp; eauto; exfalso;
        unfold complete_job, advance, Now in H; mrun; rewrite Hd in H;
        destruct (decide (job_type j = SOCKS)); try contradiction;
        rewrite Hp in H; discriminate. }
    rewrite (complete_job_ok a j i s s1 Hwf Hi Hso Hd) in H.
    inversion H; subst. simpl. simpl in F3. auto.
  - unfold complete_job in H. mrun. rewrite Hd in H. discriminate.
  - unfold complete_job in H. mrun. rewrite Hd in H. discriminate.
Qed.

Lemma handle_job_ok_inv (j : Job) (s s' : St) :
  Exist (job_agent j) s = true -> repo_wf s -> handle_job j s = (ROk tt, s') ->
  exists i ce, st_infos s !! job_id j = Some i /\ checkJob j s = (ROk ce, s) /\
    (ce = None \/ job_type j = RESULT) /\
    st_infos s' = <[job_id j := next_info j (st_now s) i]> (st_infos s) /\
    st_agents s' = st_agents s.
Proof.
  intros He Hwf H.
  destruct (st_infos s !! job_id j) as [i|] eqn:Hi.
  2:{ unfold handle_job, Agent, Repo.GetInfo in H. mrun. rewrite He in H. simpl in H.
      rewrite He in H. simpl in H. rewrite Hi in H. discriminate. }
  destruct (checkJob_state j s) as [ce Hc].
  rewrite (handle_job_checked j s i ce He Hi Hc) in H.
  exists i, ce. split; [reflexivity|]. split; [assumption|].
  destruct ce as [e|].
  - destruct (bool_decide (job_type j = RESULT)) eqn:Hb; [|discriminate].
    apply bool_decide_eq_true in Hb.
    destruct (debug_state_fields j s) as (D1 & D2 & _).
    apply complete_job_inv in H; [|apply debug_state_wf; auto| rewrite D1; auto].
    rewrite D1, D2 in H. destruct H as [H1 H2]. split; [auto|].
    split; [auto|]. rewrite H2. unfold debug_state. destruct (st_debug s); reflexivity.
  - apply complete_job_inv in H; [tauto | auto | auto].
Qed.

(** A job that is not a RESULT and that a previous Handler call completed is
    refused by the next call, with nothing changed. *)
Lemma handle_again_completed (j : Job) (s s1 : St) :
  Exist (job_agent j) s = true -> repo_wf s -> job_type j <> RESULT ->
  Handler [j] s = (ROk tt, s1) ->
  option_map info_status (st_infos s1 !! job_id j) = Some COMPLETE ->
  Handler [j] s1 = (RErr (ErrCompleted (job_id j)), s1).
Proof.
  intros He Hwf Hr H Hst. rewrite Handler_single in *.
  destruct (handle_job_ok_inv j s s1 He Hwf H) as (i & ce & Hi & Hc & Hce & Hinf & Hag).
  destruct Hce as [->|]; [|contradiction].
  pose proof (checkJob_ok_token j s i He Hi Hc) as Htok.
  assert (He1 : Exist (job_agent j) s1 = true).
  { unfold Exist in *. rewrite Hag. exact He. }
  assert (Hi1 : st_infos s1 !! job_id j = Some (next_info j (st_now s) i)).
  { rewrite Hinf. apply lookup_insert_eq. }
  rewrite Hi1 in Hst. simpl in Hst. inversion Hst as [Hst'].
  assert (Htok1 : job_token j = info_token (next_info j (st_now s) i)).
  { unfold next_info. destruct (job_type j), (job_payload j); try destruct close; exact Htok. }
  rewrite (handle_job_checked j s1 _ _ He1 Hi1
             (checkJob_completed j s1 _ He1 Hi1 Htok1 Hst')).
  rewrite bool_decide_false by exact Hr. reflexivity.
Qed.

Lemma s0_wf : repo_wf Scenario.s0.
Proof.
  intros k i H.
  apply (map_Forall_lookup_1 (fun k i => info_id i = k) (st_infos Scenario.s0) k i); [|exact H].
  apply (bool_decide_unpack _). vm_compute. reflexivity.
Qed.

(* ===================================================================== *)
(** ** Jobs with an unknown id *)
(* ===================================================================== *)

(** C3 (failing input): whatever its type, a job of a known agent whose id
    is not on record aborts the whole batch with the repository's NotFound
    error, before the RESULT exemption of [checkJob]'s caller is reached. *)
Theorem handler_unknown_id_aborts (j : Job) (rest : list Job) (s : St) :
  Exist (job_agent j) s = true -> st_infos s !! job_id j = None ->
  Handler (j :: rest) s = (RErr (ErrHandler (ErrNotFound (job_id j))), s).
Proof.
  intros He Hi. simpl. unfold handle_job, Agent, Repo.GetInfo. mrun.
  rewrite He. simpl. rewrite He. simpl. rewrite Hi. reflexivity.
Qed.

(** Witness: a free-form RESULT with the unknown id "X", followed by a
    well-formed RESULT for job J, aborts the batch. *)
Lemma handler_unknown_id_aborts_witness :
  Handler [Scenario.result_job "X" 8 "agent error"; Scenario.result_job "J" 7 "ok"]
          Scenario.s0
    = (RErr (ErrHandler (ErrNotFound "X")), Scenario.s0).
Proof.
  apply (handler_unknown_id_aborts (Scenario.result_job "X" 8 "agent error")
           [Scenario.result_job "J" 7 "ok"] Scenario.s0);
    vm_compute; reflexivity.
Defined.

(* ===================================================================== *)
(** ** Status transitions and once-only completion *)
(* ===================================================================== *)

(** C6: when Handler accepts an inbound job of a known agent, the job's record
    is replaced (via UpdateInfo) by the same record whose status is ACTIVE for
    a SOCKS frame with close = false, COMPLETE for a SOCKS frame with
    close = true and COMPLETE for every other type; an identical SOCKS close
    frame sent again is refused with the "previously completed" error. *)
Theorem handler_status_transition (j : Job) (s s' : St) :
  Exist (job_agent j) s = true -> repo_wf s -> Handler [j] s = (ROk tt, s') ->
  (exists i, st_infos s !! job_id j = Some i /\
             st_infos s' !! job_id j = Some (next_info j (st_now s) i)) /\
  option_map info_status (st_infos s' !! job_id j) =
    Some (match job_type j, job_payload j with
          | SOCKS, Socks _ _ _ true => COMPLETE
          | SOCKS, _ => ACTIVE
          | _, _ => COMPLETE
          end) /\
  (job_type j = SOCKS -> (exists sid idx d, job_payload j = Socks sid idx d true) ->
     Handler [j] s' = (RErr (ErrCompleted (job_id j)), s')).
Proof.
  intros He Hwf H.
  pose proof H as H0. rewrite Handler_single in H0.
  destruct (handle_job_ok_inv j s s' He Hwf H0) as (i & ce & Hi & _ & _ & Hinf & _).
  assert (Hi' : st_infos s' !! job_id j = Some (next_info j (st_now s) i)).
  { rewrite Hinf. apply lookup_insert_eq. }
  split; [eauto|]. rewrite Hi'. simpl.
  assert (Hst : info_status (next_info j (st_now s) i) =
                match job_type j, job_payload j with
                | SOCKS, Socks _ _ _ true => COMPLETE
                | SOCKS, _ => ACTIVE
                | _, _ => COMPLETE
                end).
  { unfold next_info. destruct (job_type j), (job_payload j); try destruct close; reflexivity. }
  split; [now rewrite Hst|].
  intros Hs (sid & idx & d & Hp).
  apply (handle_again_completed j s s' He Hwf); [congruence | exact H |].
  rewrite Hi'. simpl. rewrite Hst, Hs, Hp. reflexivity.
Qed.

(** Witness: the close frame of SOCKS connection S. *)
Lemma handler_status_transition_witness :
  Handler [Scenario.socks_job true] (snd (Handler [Scenario.socks_job true] Scenario.s0))
  = (RErr (ErrCompleted "S"), snd (Handler [Scenario.socks_job true] Scenario.s0)).
Proof.
  refine (proj2 (proj2 (handler_status_transition (Scenario.socks_job true) Scenario.s0
            (snd (Handler [Scenario.socks_job true] Scenario.s0)) _ s0_wf _)) _ _);
    [vm_compute; reflexivity | vm_compute; reflexivity | reflexivity |
     exists "S"%string, 0, ""%string; reflexivity].
Defined.

(** C7 (counterexample): a RESULT is dispatched again after its job was
    completed: the second Handler call with the same id and token returns no
    error and logs the results a second time. *)
Lemma C7_result_redispatched :
  let s1 := snd (Handler [Scenario.result_job "J" 7 "hi"] Scenario.s0) in
  let r2 := Handler [Scenario.result_job "J" 7 "hi"] s1 in
  option_map info_status (st_infos s1 !! "J"%string) = Some COMPLETE /\
  fst r2 = ROk tt /\
  (length (st_alog s1) < length (st_alog (snd r2)))%nat.
Proof. vm_compute. repeat split. lia. Qed.

(** A successful Handler call keeps the repository well formed and the
    agent known. *)
Lemma handler_ok_wf (j : Job) (s s1 : St) :
  Exist (job_agent j) s = true -> repo_wf s -> Handler [j] s = (ROk tt, s1) ->
  exists i, st_infos s !! job_id j = Some i /\
    st_infos s1 !! job_id j = Some (next_info j (st_now s) i) /\
    repo_wf s1 /\ Exist (job_agent j) s1 = true.
Proof.
  intros He Hwf H. rewrite Handler_single in H.
  destruct (handle_job_ok_inv j s s1 He Hwf H) as (i & ce & Hi & _ & _ & Hinf & Hag).
  exists i. split; [exact Hi|]. split; [rewrite Hinf; apply lookup_insert_eq|].
  split.
  - intros k x. rewrite Hinf. destruct (decide (k = job_id j)) as [->|Hk].
    + rewrite lookup_insert_eq. intros Hx. injection Hx as <-.
      assert (Hid : info_id i = job_id j) by (eapply Hwf; eauto).
      unfold next_info. destruct (job_type j), (job_payload j); try destruct close; exact Hid.
    + rewrite lookup_insert_ne by congruence. apply Hwf.
  - unfold Exist in *. rewrite Hag. exact He.
Qed.

(** C7 (amended): once a Handler call has left the record of a job COMPLETE,
    a second Handler call with the same job (same id and token) returns the
    "previously completed" error and changes nothing (no dispatch, no log
    line, no broadcast, same record) when the job is not a RESULT; a RESULT is
    exempt: it is dispatched again without error, its log lines and
    broadcasts are emitted again and the record is marked COMPLETE again at
    the current time. *)
Theorem handler_once_only (j : Job) (s s1 : St) :
  Exist (job_agent j) s = true -> repo_wf s ->
  Handler [j] s = (ROk tt, s1) ->
  option_map info_status (st_infos s1 !! job_id j) = Some COMPLETE ->
  (job_type j <> RESULT -> Handler [j] s1 = (RErr (ErrCompleted (job_id j)), s1)) /\
  (forall o e, job_type j = RESULT -> job_payload j = Results o e ->
     exists i s2, st_infos s1 !! job_id j = Some i /\ info_status i = COMPLETE /\
       Handler [j] s1 = (ROk tt, s2) /\
       st_alog s2 = st_alog s1 ++ result_log j o e /\
       st_bcast s2 = st_bcast s1 ++ result_bcast j (st_now s1) o e /\
       st_infos s2 !! job_id j = Some (Info_Complete (st_now s1) i)).
Proof.
  intros He Hwf H Hst. split.
  - intros Hr. exact (handle_again_completed j s s1 He Hwf Hr H Hst).
  - intros o e Hr Hp.
    destruct (handler_ok_wf j s s1 He Hwf H) as (i0 & _ & Hi1 & Hwf1 & He1).
    rewrite Hi1 in Hst. simpl in Hst. injection Hst as Hst.
    destruct (handler_result_effects j s1 _ o e He1 Hwf1 Hi1 Hr Hp)
      as (s2 & Hh & Hl & Hb & Hinf).
    exists (next_info j (st_now s) i0), s2. split; [exact Hi1|]. split; [exact Hst|].
    split; [exact Hh|]. split; [exact Hl|]. split; [exact Hb|].
    rewrite Hinf. apply lookup_insert_eq.
Qed.

(** Witness: a FILETRANSFER for job K, sent twice. *)
Lemma handler_once_only_witness :
  let j := Scenario.ft_job "/etc/passwd" "Zm9v" false in
  Handler [j] (snd (Handler [j] Scenario.s0))
  = (RErr (ErrCompleted "K"), snd (Handler [j] Scenario.s0)).
Proof.
  apply (proj1 (handler_once_only (Scenario.ft_job "/etc/passwd" "Zm9v" false) Scenario.s0
           (snd (Handler [Scenario.ft_job "/etc/passwd" "Zm9v" false] Scenario.s0))
           ltac:(vm_compute; reflexivity) s0_wf ltac:(vm_compute; reflexivity)
           ltac:(vm_compute; reflexivity))).
  discriminate.
Defined.

(* ===================================================================== *)
(** ** File landing *)
(* ===================================================================== *)

(** The server-side data directory, and the file a FILETRANSFER of agent [a]
    for [location] is written to, as [fileTransfer] computes them. *)
Definition agents_dir (s : St) : string := FilePath.Join [st_cwd s; "data"; "agents"].

Definition landing_path (s : St) (a : N) (location : string) : string :=
  FilePath.Join [agents_dir s; uuid_string a; snd (FilePath.Split location)].

Lemma checkJob_accept (j : Job) (s : St) (i : Info) :
  Exist (job_agent j) s = true -> st_infos s !! job_id j = Some i ->
  job_token j = info_token i -> info_status i <> COMPLETE -> info_status i <> CANCELED ->
  checkJob j s = (ROk None, s).
Proof.
  intros He Hi Ht H1 H2. unfold checkJob, Repo.GetInfo. mrun.
  rewrite He. simpl. rewrite Hi. simpl. rewrite Ht, N.eqb_refl. simpl.
  destruct (decide (info_status i = COMPLETE)); [contradiction|].
  destruct (decide (info_status i = CANCELED)); [contradiction|reflexivity].
Qed.

Lemma fileTransfer_upload_noop (a : N) (l b : string) (s : St) :
  Exist a s = true -> fileTransfer a l b false s = (ROk tt, s).
Proof. intros He. unfold fileTransfer. mrun. rewrite He. reflexivity. Qed.

Lemma fileTransfer_download (a : N) (l b data : string) (s : St) :
  Exist a s = true -> agents_dir s ∈ st_dirs s ->
  Base64.DecodeString b = Some data ->
  landing_path s a l ∉ st_dirs s ->
  exists s1,
    fileTransfer a l b true s = s1 /\
    (FilePath.Dir (landing_path s a l) ∈ st_dirs s ->
       fst s1 = ROk tt /\
       st_files (snd s1) = <[landing_path s a l := (data,
          match st_files s !! landing_path s a l with Some (_, m) => m | None => 384%N end)]>
          (st_files s) /\
       In (Success, "Successfully downloaded file " +++ l +++ " with a size of "
              +++ Bytes.dec (String.length data) +++ " bytes from agent "
              +++ uuid_string a +++ " to " +++ landing_path s a l) (st_bcast (snd s1)) /\
       st_infos (snd s1) = st_infos s /\ st_now (snd s1) = st_now s /\
       st_agents (snd s1) = st_agents s) /\
    (FilePath.Dir (landing_path s a l) ∉ st_dirs s ->
       fst s1 = RErr (ErrWriting l) /\ st_files (snd s1) = st_files s).
Proof.
  intros He Hd Hb Hnd. eexists; split; [reflexivity|].
  unfold fileTransfer, OS.Stat_exists, OS.WriteFile, Now, SendBroadcastMessage,
    log_and_fail, service_Log. mrun.
  unfold agents_dir, landing_path in *.
  rewrite He. simpl. rewrite (bool_decide_eq_true_2 _ Hd). simpl.
  rewrite Hb. simpl.
  rewrite (bool_decide_eq_false_2 _ Hnd). split.
  - intros Hdir. simpl. rewrite (bool_decide_eq_true_2 _ Hdir). simpl.
    unfold Exist in *. simpl. rewrite He. simpl.
    repeat split; auto. apply in_or_app. right. simpl. auto.
  - intros Hdir. simpl. rewrite (bool_decide_eq_false_2 _ Hdir). simpl.
    unfold Exist in *. simpl. rewrite He. simpl. auto.
Qed.

(** When the target is itself a directory (for instance the agent's
    directory, when [location] ends in a separator), the write fails. *)
Lemma fileTransfer_download_onto_dir (a : N) (l b data : string) (s : St) :
  Exist a s = true -> agents_dir s ∈ st_dirs s ->
  Base64.DecodeString b = Some data ->
  landing_path s a l ∈ st_dirs s ->
  fst (fileTransfer a l b true s) = RErr (ErrWriting l) /\
  st_files (snd (fileTransfer a l b true s)) = st_files s.
Proof.
  intros He Hd Hb Hnd.
  unfold fileTransfer, OS.Stat_exists, OS.WriteFile, Now, SendBroadcastMessage,
    log_and_fail, service_Log. mrun.
  unfold agents_dir, landing_path in *.
  rewrite He. simpl. rewrite (bool_decide_eq_true_2 _ Hd). simpl.
  rewrite Hb. simpl. rewrite (bool_decide_eq_true_2 _ Hnd). simpl.
  unfold Exist in *. simpl. rewrite He. simpl. auto.
Qed.

Lemma dispatch_filetransfer (a : N) (j : Job) (s : St) l b d :
  job_type j = FILETRANSFER -> job_payload j = FileTransfer l b d ->
  dispatch a j s = fileTransfer (job_agent j) l b d s.
Proof. intros Ht Hp. unfold dispatch. rewrite Ht, Hp. reflexivity. Qed.

(** C4 (counterexample): S5 as stated, a FILETRANSFER
    {location "/etc/passwd", blob "Zm9v", is_download false} from known agent
    A: Handler succeeds but writes no file and emits no broadcast. *)
Lemma C4_download_flag_false_writes_nothing :
  let r := Handler [Scenario.ft_job "/etc/passwd" "Zm9v" false] Scenario.s0 in
  fst r = ROk tt /\
  st_files (snd r) !! landing_path Scenario.s0 Scenario.A "/etc/passwd" = None /\
  st_files (snd r) = st_files Scenario.s0 /\
  st_bcast (snd r) = [].
Proof. vm_compute. repeat split. Qed.

(** C4 (amended): for an accepted FILETRANSFER of a known agent A (token
    matches, record neither COMPLETE nor CANCELED): with is_download = false
    Handler writes nothing and only marks the record COMPLETE; with
    is_download = true, when <cwd>/data/agents exists and the blob decodes,
    the target is <cwd>/data/agents/<A>/<f> (as filepath.Join computes it),
    where f is what follows the last separator of location (filepath.Split).
    When the target is not a directory and its parent directory exists,
    Handler writes the decoded bytes there, with mode 0600 when the file is
    new (an existing file keeps its mode), and broadcasts a success message.
    When the target is an existing directory (as when location ends in a
    separator: f is empty and the target is A's directory) or its parent
    directory is missing, Handler returns the write error and writes
    nothing. *)
Theorem handler_file_landing (j : Job) (s : St) (i : Info) (loc blob : string) :
  Exist (job_agent j) s = true -> repo_wf s -> st_infos s !! job_id j = Some i ->
  job_token j = info_token i -> info_status i <> COMPLETE -> info_status i <> CANCELED ->
  job_type j = FILETRANSFER ->
  (job_payload j = FileTransfer loc blob false ->
     Handler [j] s = (ROk tt, set_repo (st_queues s)
                        (<[job_id j := Info_Complete (st_now s) i]> (st_infos s)) s)) /\
  (forall data, job_payload j = FileTransfer loc blob true ->
     agents_dir s ∈ st_dirs s -> Base64.DecodeString blob = Some data ->
     (landing_path s (job_agent j) loc ∉ st_dirs s ->
      FilePath.Dir (landing_path s (job_agent j) loc) ∈ st_dirs s ->
        exists s', Handler [j] s = (ROk tt, s') /\
          st_files s' !! landing_path s (job_agent j) loc =
            Some (data, match st_files s !! landing_path s (job_agent j) loc with
                        | Some (_, m) => m | None => 384%N end) /\
          In (Success, "Successfully downloaded file " +++ loc +++ " with a size of "
                 +++ Bytes.dec (String.length data) +++ " bytes from agent "
                 +++ uuid_string (job_agent j) +++ " to "
                 +++ landing_path s (job_agent j) loc) (st_bcast s')) /\
     (landing_path s (job_agent j) loc ∈ st_dirs s \/
      FilePath.Dir (landing_path s (job_agent j) loc) ∉ st_dirs s ->
        exists s', Handler [j] s = (RErr (ErrWriting loc), s') /\
          st_files s' = st_files s)).
Proof.
  intros He Hwf Hi Htok Hc1 Hc2 Ht.
  rewrite Handler_single, (handle_job_checked j s i None He Hi
                             (checkJob_accept j s i He Hi Htok Hc1 Hc2)).
  assert (Hso : socks_ok j) by (intros Hs; congruence).
  split.
  - intros Hp.
    assert (Hd : dispatch (job_agent j) j s = (ROk tt, s)).
    { rewrite (dispatch_filetransfer _ j s loc blob false Ht Hp).
      apply fileTransfer_upload_noop; exact He. }
    rewrite (complete_job_ok _ j i s s Hwf Hi Hso Hd).
    unfold next_info. rewrite Ht. reflexivity.
  - intros data Hp Hdir Hb.
    pose proof (dispatch_filetransfer (job_agent j) j s loc blob true Ht Hp) as Hd.
    split.
    + intros Hnd Hpar.
      destruct (fileTransfer_download (job_agent j) loc blob data s He Hdir Hb Hnd)
        as ([r s1] & Hf & Hok & _).
      rewrite Hf in Hd.
      destruct (Hok Hpar) as (Hr & Hfiles & Hbc & _). simpl in Hr. subst r.
      rewrite (complete_job_ok _ j i s s1 Hwf Hi Hso Hd).
      eexists; split; [reflexivity|]. simpl in *. rewrite Hfiles.
      split; [apply lookup_insert_eq | exact Hbc].
    + intros Hbad.
      assert (Hft : fst (fileTransfer (job_agent j) loc blob true s) = RErr (ErrWriting loc) /\
                    st_files (snd (fileTransfer (job_agent j) loc blob true s)) = st_files s).
      { destruct (decide (landing_path s (job_agent j) loc ∈ st_dirs s)) as [Hin|Hnd].
        - exact (fileTransfer_download_onto_dir _ loc blob data s He Hdir Hb Hin).
        - destruct Hbad as [Hin|Hpar]; [contradiction|].
          destruct (fileTransfer_download (job_agent j) loc blob data s He Hdir Hb Hnd)
            as (s1 & Hf & _ & Hko). rewrite Hf. exact (Hko Hpar). }
      destruct (fileTransfer (job_agent j) loc blob true s) as [r s1] eqn:Hf.
      destruct Hft as [Hr Hfiles]. simpl in Hr, Hfiles. subst r.
      unfold complete_job. mrun. rewrite Hd.
      eexists; split; [reflexivity | exact Hfiles].
Qed.

(** Witness: S5 with the flag the agent actually sends back (is_download true). *)
Lemma handler_file_landing_witness :
  exists s',
    Handler [Scenario.ft_job "/etc/passwd" "Zm9v" true] Scenario.s0 = (ROk tt, s') /\
    st_files s' !! landing_path Scenario.s0 Scenario.A "/etc/passwd" =
      Some ("foo"%string, 384%N) /\
    In (Success, "Successfully downloaded file /etc/passwd with a size of 3 bytes from agent "
           +++ uuid_string Scenario.A +++ " to "
           +++ landing_path Scenario.s0 Scenario.A "/etc/passwd") (st_bcast s').
Proof.
  refine (proj1 (proj2 (handler_file_landing (Scenario.ft_job "/etc/passwd" "Zm9v" true)
            Scenario.s0 (Scenario.mk_info "K" Scenario.A "FILETRANSFER" 9 SENT)
            "/etc/passwd" "Zm9v" _ s0_wf _ _ _ _ _) "foo" _ _ _) _ _);
    try (vm_compute; reflexivity); try discriminate;
    try (apply (bool_decide_unpack _); vm_compute; reflexivity).
Defined.

(* ===================================================================== *)
(** ** The upload and load-assembly digests *)
(* ===================================================================== *)

Lemma rounds_length (ks ws st : list Z) :
  length st = 8%nat -> length (SHA256.rounds ks ws st) = 8%nat.
Proof.
  revert ws st. induction ks as [|k ks IH]; intros ws st H; [exact H|].
  destruct ws as [|w ws]; [exact H|].
  destruct st as [|a [|b [|c [|d [|e [|f [|g [|h [|x r]]]]]]]]];
    simpl in H; try discriminate.
  apply IH; reflexivity.
Qed.

Lemma blocks_length (fuel : nat) (hs m : list Z) :
  length hs = 8%nat -> length (SHA256.blocks fuel hs m) = 8%nat.
Proof.
  revert hs m. induction fuel as [|f IH]; intros hs m H; [exact H|].
  simpl. destruct m; [exact H|]. apply IH.
  unfold SHA256.compress. rewrite length_zip_with, rounds_length by exact H. lia.
Qed.

Lemma be_bytes_length (n : nat) (v : Z) : length (SHA256.be_bytes n v) = n.
Proof. induction n; simpl; auto. Qed.

Lemma string_of_list_ascii_length (l : list ascii) :
  String.length (string_of_list_ascii l) = length l.
Proof. induction l; simpl; auto. Qed.

(** The value stored by [fmt.Sprintf("%s", fileHash.Sum(nil))] is the raw
    32-byte digest. *)
Lemma sum_length (data : string) : String.length (SHA256.sum data) = 32%nat.
Proof.
  unfold SHA256.sum, SHA256.digest, Bytes.of_list.
  rewrite string_of_list_ascii_length, length_map.
  generalize (blocks_length (length (SHA256.pad (Bytes.to_list data))) SHA256.H0
                (SHA256.pad (Bytes.to_list data)) eq_refl).
  generalize (SHA256.blocks (length (SHA256.pad (Bytes.to_list data))) SHA256.H0
                (SHA256.pad (Bytes.to_list data))).
  intros l Hl. rewrite length_flat_map.
  destruct l as [|a [|b [|c [|d [|e [|f [|g [|h [|x r]]]]]]]]];
    simpl in Hl; try discriminate; reflexivity.
Qed.

(** C5 (counterexample): uploading "/tmp/x" (contents "hello") to "/remote":
    the value placed at index 2 of the argument vector is the raw 32-byte
    digest, not its 64-character hex encoding
    2cf24dba...9824; for load-assembly of the same file the appended value is
    the raw digest too. *)
Lemma C5_upload_digest_not_hex :
  match add_switch "upload" ["/tmp/x"; "/remote"] Scenario.s0 with
  | (ROk (_, args), _) =>
      nth_error args 2 = Some (SHA256.sum "hello") /\
      nth_error args 2 <> Some (Hex.encode (SHA256.sum "hello")) /\
      String.length (Hex.encode (SHA256.sum "hello")) = 64%nat
  | _ => False
  end /\
  match add_switch "load-assembly" ["/tmp/x"] Scenario.s0 with
  | (ROk (_, args), _) =>
      last args = Some (SHA256.sum "hello") /\
      last args <> Some (Hex.encode (SHA256.sum "hello"))
  | _ => False
  end.
Proof.
  vm_compute. split; [split; [reflexivity | split; [discriminate | reflexivity]]|].
  split; [reflexivity | discriminate].
Qed.

(** C5 (amended): for an upload with arguments [server_path; remote_path;
    rest...] whose server_path is readable, the Builder leaves the state as it
    is and emits FILETRANSFER{location = remote_path, blob = base64 of the
    bytes, is_download = true}; the argument vector becomes
    [server_path; remote_path; d; n] followed by rest minus its first two
    elements, where d is the raw 32-byte SHA-256 digest (not hex) and n the
    decimal byte length: index 2 and 3 are overwritten when present, appended
    otherwise. For load-assembly the raw 32-byte digest is appended. *)
Theorem add_upload_load_assembly_digest (s : St) (sp rp : string) (rest : list string)
    (data : string) (m : N) :
  st_files s !! sp = Some (data, m) ->
  add_switch "upload" (sp :: rp :: rest) s =
    (ROk (mk_job FILETRANSFER (FileTransfer rp (Base64.EncodeToString data) true),
          sp :: rp :: SHA256.sum data :: Bytes.dec (String.length data) :: drop 2 rest), s) /\
  add_switch "load-assembly" (sp :: rest) s =
    (ROk (mk_job MODULE (Command "clr" ["load-assembly"; Base64.EncodeToString data;
                                          match rest with [] => FilePath.Base sp | n :: _ => n end]),
          sp :: rest ++ [SHA256.sum data]), s) /\
  String.length (SHA256.sum data) = 32%nat.
Proof.
  intros Hf. split; [|split; [|apply sum_length]].
  - unfold add_switch; simpl. unfold upload_case, OS.ReadFile, index. mrun. simpl.
    rewrite Hf. simpl.
    destruct rest as [|x [|y r]]; reflexivity.
  - unfold add_switch; simpl. unfold load_assembly_case, OS.ReadFile, index. mrun. simpl.
    rewrite Hf. simpl.
    destruct rest as [|x r]; reflexivity.
Qed.

Lemma add_upload_load_assembly_digest_witness :
  add_switch "upload" ["/tmp/x"; "/remote"] Scenario.s0 =
    (ROk (mk_job FILETRANSFER (FileTransfer "/remote" (Base64.EncodeToString "hello") true),
          ["/tmp/x"; "/remote"; SHA256.sum "hello"; "5"]), Scenario.s0) /\
  add_switch "load-assembly" ["/tmp/x"] Scenario.s0 =
    (ROk (mk_job MODULE (Command "clr" ["load-assembly"; Base64.EncodeToString "hello"; "x"]),
          ["/tmp/x"; SHA256.sum "hello"]), Scenario.s0) /\
  String.length (SHA256.sum "hello") = 32%nat.
Proof.
  apply (add_upload_load_assembly_digest Scenario.s0 "/tmp/x" "/remote" [] "hello" 420).
  reflexivity.
Defined.

(* ===================================================================== *)
(** ** Broadcast fan-out *)
(* ===================================================================== *)

(** The all-ones UUID ffffffff-ffff-ffff-ffff-ffffffffffff. *)
Definition broadcast_uuid : N := (2 ^ 128 - 1)%N.

(** [s] with no agent known. *)
Definition without_agents (s : St) : St :=
  {| st_agents := []; st_queues := st_queues s; st_infos := st_infos s;
     st_alog := st_alog s; st_bcast := st_bcast s; st_dirs := st_dirs s;
     st_files := st_files s; st_cwd := st_cwd s; st_debug := st_debug s;
     st_stdout := st_stdout s; st_socks_in := st_socks_in s;
     st_agent_infos := st_agent_infos s; st_now := st_now s;
     st_next_uuid := st_next_uuid s |}.

(** The agent, id and token of a JobInfo record. *)
Definition info_key (i : Info) : N * string * N := (info_agent i, info_id i, info_token i).

(** C2: a broadcast "ps" with the two agents A and B. The two JobInfo records
    are fresh and distinct (ids ...03e8 and ...03ea, tokens 1001 and 1003),
    but the job queued for B carries A's id and token, because the same job is
    passed to every [buildJob] call and its ID and Token are kept once set.
    With no agent the broadcast fails with the no-agents error and the state
    is untouched. *)
Theorem broadcast_reuses_first_identity :
  let r := Add broadcast_uuid "ps" [] Scenario.s0 in
  uuid_string broadcast_uuid = broadcast_id /\
  (exists out, fst r = ROk out) /\
  info_key <$> st_infos (snd r) !! uuid_string 1000 =
    Some (Scenario.A, uuid_string 1000, 1001%N) /\
  info_key <$> st_infos (snd r) !! uuid_string 1002 =
    Some (Scenario.B, uuid_string 1002, 1003%N) /\
  st_queues (snd r) !! Scenario.A =
    Some [{| job_agent := Scenario.A; job_id := uuid_string 1000; job_token := 1001;
             job_type := MODULE; job_payload := Command "ps" [] |}] /\
  st_queues (snd r) !! Scenario.B =
    Some [{| job_agent := Scenario.B; job_id := uuid_string 1000; job_token := 1001;
             job_type := MODULE; job_payload := Command "ps" [] |}] /\
  uuid_string 1000 <> uuid_string 1002 /\
  Add broadcast_uuid "ps" [] (without_agents Scenario.s0) =
    (RErr ErrNoAgents, without_agents Scenario.s0).
Proof.
  vm_compute. split; [reflexivity|]. split; [eexists; reflexivity|].
  repeat split; try reflexivity. discriminate.
Qed.

(* ===================================================================== *)
(** ** Unguarded argument indexing in the Builder *)
(* ===================================================================== *)

(** C8: for any target agent and any state, [Add] with no arguments panics
    (Go index or slice out of range) for download, exit, pwd, run, exec and
    rm, and [Add] of "shellcode" with the single argument "self" panics too;
    no ErrArgs-style error is returned for them, unlike upload or memfd.
    These runs leave the state as it was. *)
Theorem add_missing_args_panics (a : N) (s : St) :
  Add a "download" [] s = (RPanic "index out of range", s) /\
  Add a "exit" [] s = (RPanic "index out of range", s) /\
  Add a "pwd" [] s = (RPanic "index out of range", s) /\
  Add a "run" [] s = (RPanic "index out of range", s) /\
  Add a "exec" [] s = (RPanic "index out of range", s) /\
  Add a "shellcode" ["self"] s = (RPanic "index out of range", s) /\
  Add a "rm" [] s = (RPanic "slice bounds out of range", s) /\
  Add a "upload" [] s = (RErr (ErrArgs "upload"), s) /\
  Add a "memfd" [] s = (RErr (ErrArgs "memfd"), s).
Proof. repeat split. Qed.

(* ===================================================================== *)
(** ** The service factory *)
(* ===================================================================== *)

Lemma calls_after_init (n : nat) (ws : list nat) :
  Factory.calls n {| Factory.memoryService := Some 1%nat; Factory.next_ptr := 2;
                     Factory.socks_workers := ws |} =
  (repeat 1%nat n, {| Factory.memoryService := Some 1%nat; Factory.next_ptr := 2;
                      Factory.socks_workers := ws ++ repeat 1%nat n |}).
Proof.
  revert ws. induction n as [|n IH]; intros ws; simpl.
  - rewrite app_nil_r. reflexivity.
  - rewrite IH, <- app_assoc. reflexivity.
Qed.

(** C9: [NewJobService] returns the same instance on every call, but it
    starts a [socksJobs] goroutine on every call: after k >= 1 calls from
    program start there are k workers, all on that one instance. *)
Theorem factory_worker_per_call (n : nat) :
  Factory.calls (S n) Factory.init =
  (repeat 1%nat (S n),
   {| Factory.memoryService := Some 1%nat; Factory.next_ptr := 2;
      Factory.socks_workers := repeat 1%nat (S n) |}).
Proof. simpl. rewrite calls_after_init. reflexivity. Qed.

(* ===================================================================== *)
(** ** [buildJob] and a failing repository insert *)
(* ===================================================================== *)

Lemma buildJob_insert_ignored (a : N) (job : Job) (jobArgs : list string) (s s1 : St)
    (cmd : string) (old : Info) :
  Exist a s = true ->
  build_command a {| job_agent := a; job_id := job_id job; job_token := job_token job;
                     job_type := job_type job; job_payload := job_payload job |}
                jobArgs s = (ROk cmd, s1) ->
  st_infos s1 !! uuid_string (st_next_uuid s1) = Some old ->
  exists job2 s',
    buildJob a job jobArgs s = (ROk job2, s') /\
    Repo.Add job2 {| info_id := uuid_string (st_next_uuid s1); info_agent := a;
                     info_type := type_string (job_type job); info_command := cmd;
                     info_token := N.succ (st_next_uuid s1); info_status := CREATED;
                     info_created := st_now s1; info_sent := 0; info_completed := 0 |} s' =
      (ROk (Some (ErrDuplicate (uuid_string (st_next_uuid s1)))), s') /\
    st_infos s' = st_infos s1 /\ st_queues s' = st_queues s1 /\
    st_alog s' = st_alog s1 ++
      [(a, "Created job Type:" +++ type_string (job_type job) +++ ", ID:" +++ job_id job2
           +++ ", Status:Created, Command:" +++ cmd)].
Proof.
  intros He Hb Hold. unfold buildJob, Agent. rewrite He.
  mrun. rewrite Hb. unfold NewInfo, NewV4, Now. mrun. simpl.
  unfold Repo.Add. simpl. rewrite Hold. simpl.
  unfold agent_Log. mrun. simpl.
  eexists; eexists; split; [reflexivity|]. simpl. rewrite Hold.
  split; [reflexivity|]. split; [reflexivity|]. split; reflexivity.
Qed.

(** C10: when the repository refuses the new (job, JobInfo) pair (its
    fresh id is already stored), [buildJob] still succeeds, stores nothing,
    writes the "Created job" line to the agent log, and for a target that is
    not the broadcast id [AddJobChannel] reports success. *)
Theorem buildJob_ignores_repo_error (a : N) (job : Job) (jobArgs : list string)
    (s s1 : St) (cmd : string) (old : Info) :
  Exist a s = true -> uuid_string a <> broadcast_id ->
  build_command a {| job_agent := a; job_id := job_id job; job_token := job_token job;
                     job_type := job_type job; job_payload := job_payload job |}
                jobArgs s = (ROk cmd, s1) ->
  st_infos s1 !! uuid_string (st_next_uuid s1) = Some old ->
  (exists job2 s',
    buildJob a job jobArgs s = (ROk job2, s') /\
    Repo.Add job2 {| info_id := uuid_string (st_next_uuid s1); info_agent := a;
                     info_type := type_string (job_type job); info_command := cmd;
                     info_token := N.succ (st_next_uuid s1); info_status := CREATED;
                     info_created := st_now s1; info_sent := 0; info_completed := 0 |} s' =
      (ROk (Some (ErrDuplicate (uuid_string (st_next_uuid s1)))), s') /\
    st_infos s' = st_infos s1 /\ st_queues s' = st_queues s1 /\
    st_alog s' = st_alog s1 ++
      [(a, "Created job Type:" +++ type_string (job_type job) +++ ", ID:" +++ job_id job2
           +++ ", Status:Created, Command:" +++ cmd)]) /\
  exists out s', AddJobChannel a job jobArgs s = (ROk out, s') /\
    st_infos s' = st_infos s1 /\ st_queues s' = st_queues s1.
Proof.
  intros He Hnb Hb Hold.
  pose proof (buildJob_insert_ignored a job jobArgs s s1 cmd old He Hb Hold) as H.
  split; [exact H|].
  destruct H as (job2 & s' & Hj & _ & Hi & Hq & _).
  unfold AddJobChannel. mrun.
  apply String.eqb_neq in Hnb. rewrite Hnb. rewrite Hj.
  eexists; eexists; split; [reflexivity|]. split; assumption.
Qed.

Lemma buildJob_ignores_repo_error_witness :
  let s := set_repo (st_queues Scenario.s0)
             (<[uuid_string 1000 := Scenario.mk_info "X" Scenario.B "CMD" 5 SENT]>
                (st_infos Scenario.s0)) Scenario.s0 in
  (exists job2 s',
    buildJob Scenario.A (mk_job MODULE (Command "ps" [])) [] s = (ROk job2, s') /\
    Repo.Add job2 {| info_id := uuid_string (st_next_uuid s); info_agent := Scenario.A;
                     info_type := type_string MODULE; info_command := "ps ";
                     info_token := N.succ (st_next_uuid s); info_status := CREATED;
                     info_created := st_now s; info_sent := 0; info_completed := 0 |} s' =
      (ROk (Some (ErrDuplicate (uuid_string (st_next_uuid s)))), s') /\
    st_infos s' = st_infos s /\ st_queues s' = st_queues s /\
    st_alog s' = st_alog s ++
      [(Scenario.A, "Created job Type:" +++ type_string MODULE +++ ", ID:" +++ job_id job2
           +++ ", Status:Created, Command:" +++ "ps ")]) /\
  exists out s', AddJobChannel Scenario.A (mk_job MODULE (Command "ps" [])) [] s = (ROk out, s') /\
    st_infos s' = st_infos s /\ st_queues s' = st_queues s.
Proof.
  intros s.
  apply (buildJob_ignores_repo_error Scenario.A (mk_job MODULE (Command "ps" [])) [] s s
           "ps " (Scenario.mk_info "X" Scenario.B "CMD" 5 SENT));
    [apply (bool_decide_unpack _); vm_compute; reflexivity
    | vm_compute; discriminate | vm_compute; reflexivity | vm_compute; reflexivity].
Defined.

(* ===================================================================== *)
(** * Further properties of job.go *)
(* ===================================================================== *)

(** *** Fields a computation leaves alone *)

Definition keeps {T A} (f : St -> T) (m : M A) : Prop := forall s, f (snd (m s)) = f s.

Lemma keeps_bind {T A B} (f : St -> T) (m : M A) (k : A -> M B) :
  keeps f m -> (forall a, keeps f (k a)) -> keeps f (mbind k m).
Proof.
  intros Hm Hk s. unfold mbind, M_bind. specialize (Hm s).
  destruct (m s) as [[a|e|p] s1]; simpl in *; auto. rewrite Hk. exact Hm.
Qed.

Ltac keeps_prim :=
  intros ?s; unfold Agent, agent_Log, service_Log, UpdateAgentInfo, SendBroadcastMessage,
    socks_In, Printf, Now, NewV4, OS.Stat_exists, OS.ReadFile, OS.WriteFile, Repo.GetInfo,
    Repo.UpdateInfo, Repo.Add, index, modify, gets, mret, M_ret, throw, panic;
  repeat (case_match; simpl); reflexivity.

Ltac solve_keeps :=
  repeat (cbv zeta;
    match goal with
    | |- keeps _ (mbind _ _) => apply keeps_bind; [| intros ?]
    | |- keeps _ (if ?b then _ else _) => destruct b
    | |- keeps _ (match ?x with _ => _ end) => destruct x
    | |- keeps _ _ => solve [keeps_prim]
    end).

(** *** Results a computation returns *)

Definition post {A} (P : A -> Prop) (m : M A) : Prop :=
  forall s, match fst (m s) with ROk a => P a | _ => True end.

Lemma post_bind {A B} (P : B -> Prop) (m : M A) (k : A -> M B) :
  (forall a, post P (k a)) -> post P (mbind k m).
Proof.
  intros Hk s. unfold mbind, M_bind.
  destruct (m s) as [[a|e|p] s1]; simpl; auto. apply Hk.
Qed.

Lemma post_ret {A} (P : A -> Prop) (a : A) : P a -> post P (mret a).
Proof. intros H s. exact H. Qed.

Lemma post_bind_q {A B} (Q : A -> Prop) (P : B -> Prop) (m : M A) (k : A -> M B) :
  post Q m -> (forall a, Q a -> post P (k a)) -> post P (mbind k m).
Proof.
  intros Hm Hk s. unfold mbind, M_bind. specialize (Hm s).
  destruct (m s) as [[a|e|p] s1]; simpl in *; auto. apply Hk, Hm.
Qed.

(** A job whose ID, Token and AgentID are still unset. *)
Definition unset_job (j : Job) : Prop :=
  job_id j = "" /\ job_token j = uuid_nil /\ job_agent j = uuid_nil.

Ltac solve_post :=
  repeat (cbv zeta;
    match goal with
    | |- post _ (@mbind _ _ Job _ _ _) =>
        apply (post_bind_q unset_job); [| intros ?a ?Ha; apply post_ret; exact Ha]
    | |- post _ (mbind _ _) => apply post_bind; intros ?
    | |- post _ (mret _) => apply post_ret; unfold unset_job; simpl; auto
    | |- post _ (if ?b then _ else _) => destruct b
    | |- post _ (match ?x with _ => _ end) => destruct x
    | |- post _ (throw _) => intros ?s; exact I
    | |- post _ (panic _) => intros ?s; exact I
    end).

(** *** The Builder's switch *)

(** The [switch jobType] only reads the state (files, via ReadFile). *)
Lemma add_switch_keeps (t : string) (args : list string) :
  keeps (fun s => s) (add_switch t args).
Proof.
  unfold add_switch, control_arg0, shellcode_case, load_assembly_case, memfd_case,
    upload_case.
  solve_keeps.
Qed.

(** Every job the switch builds has ID, Token and AgentID still unset. *)
Lemma add_switch_unset (t : string) (args : list string) :
  post (fun p => unset_job (fst p)) (add_switch t args).
Proof.
  unfold add_switch, control_arg0, shellcode_case, load_assembly_case, memfd_case,
    upload_case.
  solve_post.
Qed.

(** *** Further properties of the Builder, the dispatcher and the tables *)

(** The case labels of the [switch jobType] of [Service.Add]. *)
Definition known_kinds : list string :=
  ["agentInfo"; "download"; "cd"; "changelistener"; "CreateProcess"; "env"; "exit";
   "ifconfig"; "initialize"; "invoke-assembly"; "ja3"; "killdate"; "killprocess";
   "link"; "listener"; "list-assemblies"; "load-assembly"; "load-clr"; "ls";
   "maxretry"; "memory"; "memfd"; "Minidump"; "netstat"; "nslookup"; "padding";
   "pipes"; "ps"; "pwd"; "rm"; "run"; "exec"; "runas"; "sdelete"; "shell";
   "shellcode"; "skew"; "sleep"; "ssh"; "token"; "touch"; "unlink"; "upload"; "uptime"].

(** [Service.Add] with a job type outside the switch: the [default] case
    returns the invalid-job-type error and nothing is built or logged. *)
Theorem add_unknown_kind (a : N) (t : string) (args : list string) (s : St) :
  ~ In t known_kinds -> Add a t args s = (RErr ErrInvalidJobType, s).
Proof.
  intros Hn.
  assert (Hf : forall k, In k known_kinds -> String.eqb t k = false).
  { intros k Hk. apply String.eqb_neq. intros ->. contradiction. }
  unfold Add, add_switch. cbv zeta.
  rewrite !Hf by (simpl; tauto). reflexivity.
Qed.

Lemma add_unknown_kind_witness :
  Add Scenario.A "whoami" [] Scenario.s0 = (RErr ErrInvalidJobType, Scenario.s0).
Proof. apply add_unknown_kind. simpl. intuition discriminate. Defined.

(** The switch of [Service.Add] only reads the state: when it fails, [Add]
    fails with the same error (or panic) and the state is unchanged; when it
    succeeds, the job it hands on still has ID, Token and AgentID unset. *)
Theorem add_switch_failure_unchanged (a : N) (t : string) (args : list string) (s : St) :
  exists r, add_switch t args s = (r, s) /\
    (forall e, r = RErr e -> Add a t args s = (RErr e, s)) /\
    (forall m, r = RPanic m -> Add a t args s = (RPanic m, s)) /\
    (forall j args', r = ROk (j, args') ->
       job_id j = "" /\ job_token j = uuid_nil /\ job_agent j = uuid_nil).
Proof.
  pose proof (add_switch_keeps t args s) as Hk.
  pose proof (add_switch_unset t args s) as Hu.
  destruct (add_switch t args s) as [r s1] eqn:E. simpl in Hk, Hu. subst s1.
  exists r. split; [reflexivity|].
  unfold Add. mrun. rewrite E.
  repeat split; intros; subst; try reflexivity; apply Hu.
Qed.

(** The control commands taking their argument from [jobArgs[1:]] only when
    [len(jobArgs) == 2]. *)
Definition control_kinds : list string := ["ja3"; "killdate"; "maxretry"; "padding"; "skew"; "sleep"].

(** The CONTROL cases ja3, killdate, maxretry, padding, skew and sleep take
    the command from [jobArgs[0]] and keep [jobArgs[1:]] only when there are
    exactly two arguments; with no argument the indexing panics. *)
Theorem add_control_args (t : string) (a0 : string) (rest : list string) (s : St) :
  In t control_kinds ->
  add_switch t (a0 :: rest) s =
    (ROk (mk_job CONTROL (Command a0 (if Nat.eqb (length rest) 1 then rest else [])),
          a0 :: rest), s) /\
  add_switch t [] s = (RPanic "index out of range", s).
Proof.
  intros Ht. simpl in Ht.
  destruct Ht as [<-|[<-|[<-|[<-|[<-|[<-|[]]]]]]];
    (split; [destruct rest as [|x [|y r]]; reflexivity | reflexivity]).
Qed.
(** Witness of [add_control_args]: [sleep 30s]. *)
Lemma add_control_args_witness :
  add_switch "sleep" ["sleep"; "30s"] Scenario.s0 =
    (ROk (mk_job CONTROL (Command "sleep" ["30s"]), ["sleep"; "30s"]), Scenario.s0).
Proof.
  apply (add_control_args "sleep" "sleep" ["30s"] Scenario.s0). simpl. tauto.
Defined.


(** [Service.Add] for one agent (not the broadcast identifier), once the
    switch built the job: an unknown agent fails with the buildJob error and
    the state unchanged; for a known agent, the fresh id and token come from
    [NewInfo], the record is stored CREATED under the fresh id, the job is
    appended to the agent's queue with that id and token, the creation is
    logged against the agent, and the message names the id, agent and time. *)
Theorem add_single_agent (a : N) (t : string) (args args' : list string) (s s1 : St)
    (j : Job) (cmd : string) :
  uuid_string a <> broadcast_id ->
  add_switch t args s = (ROk (j, args'), s) ->
  (Exist a s = false -> Add a t args s = (RErr (ErrBuildUnknownAgent a), s)) /\
  (Exist a s = true ->
   build_command a {| job_agent := a; job_id := job_id j; job_token := job_token j;
                      job_type := job_type j; job_payload := job_payload j |}
                 args' s = (ROk cmd, s1) ->
   st_infos s1 !! uuid_string (st_next_uuid s1) = None ->
   exists s',
     Add a t args s = (ROk ("Created job " +++ uuid_string (st_next_uuid s1) +++ " for agent "
                            +++ uuid_string a +++ " at " +++ fmt_time (st_now s1)), s') /\
     st_infos s' = <[uuid_string (st_next_uuid s1) :=
        {| info_id := uuid_string (st_next_uuid s1); info_agent := a;
           info_type := type_string (job_type j); info_command := cmd;
           info_token := N.succ (st_next_uuid s1); info_status := CREATED;
           info_created := st_now s1; info_sent := 0; info_completed := 0 |}]> (st_infos s1) /\
     st_queues s' = <[a := default [] (st_queues s1 !! a) ++
        [{| job_agent := a; job_id := uuid_string (st_next_uuid s1);
            job_token := N.succ (st_next_uuid s1); job_type := job_type j;
            job_payload := job_payload j |}]]> (st_queues s1) /\
     st_alog s' = st_alog s1 ++
        [(a, "Created job Type:" +++ type_string (job_type j) +++ ", ID:"
             +++ uuid_string (st_next_uuid s1) +++ ", Status:Created, Command:" +++ cmd)]).
Proof.
  intros Hnb Hs.
  pose proof (add_switch_unset t args s) as Hu. rewrite Hs in Hu. simpl in Hu.
  destruct Hu as (Hid & Htok & _).
  apply String.eqb_neq in Hnb.
  unfold Add. unfold mbind, M_bind. rewrite Hs.
  unfold AddJobChannel. mrun. rewrite Hnb.
  split.
  - intros He. unfold buildJob, Agent. rewrite He. reflexivity.
  - intros He Hb Hn. unfold buildJob, Agent. rewrite He. mrun. rewrite Hb.
    unfold NewInfo, NewV4, Now. mrun. cbn [job_id job_token st_next_uuid set_next_uuid st_now].
    rewrite Hid, Htok. cbn [N.eqb String.eqb uuid_nil].
    unfold Repo.Add. cbn [st_infos set_next_uuid info_id]. rewrite Hn.
    unfold agent_Log. mrun.
    eexists; split; [reflexivity|]. repeat split.
Qed.
(** Witness of [add_single_agent]: [ps] for the known agent A. *)
Lemma add_single_agent_witness :
  exists s', Add Scenario.A "ps" [] Scenario.s0 =
    (ROk ("Created job " +++ uuid_string 1000 +++ " for agent " +++ uuid_string Scenario.A
          +++ " at " +++ fmt_time 100), s').
Proof.
  destruct (add_single_agent Scenario.A "ps" [] [] Scenario.s0 Scenario.s0
              (mk_job MODULE (Command "ps" [])) "ps "
              ltac:(vm_compute; discriminate) ltac:(vm_compute; reflexivity))
    as [_ H].
  destruct (H ltac:(vm_compute; reflexivity) ltac:(vm_compute; reflexivity)
              ltac:(vm_compute; reflexivity)) as (s' & Hs & _).
  exists s'. exact Hs.
Defined.

(** The shellcode methods remote, rtlcreateuserthread and userapc parse
    [jobArgs[1]] with [strconv.Atoi]: a non-number is returned as the error,
    a number [i] becomes the PID [uint32(i)], i.e. [i mod 2^32]. *)
Theorem add_shellcode_pid (m p b : string) (rest : list string) (s : St) :
  In m ["remote"; "rtlcreateuserthread"; "userapc"] ->
  add_switch "shellcode" (m :: p :: b :: rest) s =
    match Atoi p with
    | None => (RErr (ErrAtoi p), s)
    | Some i => (ROk (mk_job SHELLCODE (Shellcode m (Z.to_N (i mod 2 ^ 32)) b),
                      m :: p :: b :: rest), s)
    end.
Proof.
  intros Hm. unfold add_switch, shellcode_case. cbv zeta. cbn [String.eqb Ascii.eqb Bool.eqb orb andb].
  unfold index. mrun. cbn [nth_error].
  assert (Hs : String.eqb m "self" = false).
  { apply String.eqb_neq. intros ->. simpl in Hm. intuition discriminate. }
  assert (Ho : (String.eqb m "remote" || String.eqb m "rtlcreateuserthread"
                || String.eqb m "userapc") = true).
  { simpl in Hm. destruct Hm as [<-|[<-|[<-|[]]]]; reflexivity. }
  rewrite Hs, Ho. destruct (Atoi p); reflexivity.
Qed.

Lemma add_shellcode_pid_witness :
  add_switch "shellcode" ["remote"; "-1"; "AAAA"] Scenario.s0 =
    (ROk (mk_job SHELLCODE (Shellcode "remote" 4294967295 "AAAA"),
          ["remote"; "-1"; "AAAA"]), Scenario.s0).
Proof.
  rewrite (add_shellcode_pid "remote" "-1" "AAAA" [] Scenario.s0); [reflexivity|].
  simpl. left. reflexivity.
Defined.
Definition invalid_agent_warning (j : Job) : Level * string :=
  (Warn, "Job " +++ job_id j +++ " was for an invalid agent " +++ uuid_string (job_agent j)).

(** Jobs of unknown agents are skipped: each only adds a warning broadcast,
    in batch order, and [Handler] returns no error. *)
Theorem Handler_unknown_agents (l : list Job) (s : St) :
  Forall (fun j => Exist (job_agent j) s = false) l ->
  Handler l s = (ROk tt, set_bcast (st_bcast s ++ map invalid_agent_warning l) s).
Proof.
  revert s. induction l as [|j l IH]; intros s Hl.
  - simpl. rewrite app_nil_r. destruct s; reflexivity.
  - inversion Hl as [|? ? Hj Hl']; subst.
    simpl. unfold mbind, M_bind.
    assert (Hh : handle_job j s =
                 (ROk tt, set_bcast (st_bcast s ++ [invalid_agent_warning j]) s)).
    { unfold handle_job, SendBroadcastMessage. mrun. rewrite Hj. reflexivity. }
    rewrite Hh. rewrite IH.
    + simpl. rewrite <- app_assoc. reflexivity.
    + eapply Forall_impl; [exact Hl'|]. intros x Hx. exact Hx.
Qed.
(** Witness of [Handler_unknown_agents]: a job of agent 5, which is not in
    the directory. *)
Lemma Handler_unknown_agents_witness :
  Handler [{| job_agent := 5; job_id := "Z"; job_token := 1; job_type := RESULT;
              job_payload := Results "x" "" |}] Scenario.s0 =
    (ROk tt, set_bcast [(Warn, "Job Z was for an invalid agent " +++ uuid_string 5)]
                       Scenario.s0).
Proof.
  rewrite Handler_unknown_agents; [reflexivity|].
  constructor; [vm_compute; reflexivity | constructor].
Defined.

Definition env (s : St) : gmap N (list Job) * list N * gset string * string :=
  (st_queues s, st_agents s, st_dirs s, st_cwd s).

Lemma keeps_env_fileTransfer a l b d : keeps env (fileTransfer a l b d).
Proof. unfold fileTransfer, log_and_fail. solve_keeps. Qed.

Lemma keeps_env_handle_job j : keeps env (handle_job j).
Proof.
  unfold handle_job, complete_job, advance, dispatch, checkJob.
  solve_keeps; apply keeps_env_fileTransfer.
Qed.

Lemma keeps_files_handle_job j :
  job_type j <> FILETRANSFER -> keeps st_files (handle_job j).
Proof.
  intros Ht.
  unfold handle_job, complete_job, advance, dispatch, checkJob.
  destruct (job_type j) eqn:E; try congruence; solve_keeps.
Qed.

Lemma keeps_env_Handler l : keeps env (Handler l).
Proof.
  induction l as [|j l IH]; simpl; [intros s'; reflexivity|].
  apply keeps_bind; [apply keeps_env_handle_job | intros _; exact IH].
Qed.

Lemma keeps_files_Handler l :
  Forall (fun j => job_type j <> FILETRANSFER) l -> keeps st_files (Handler l).
Proof.
  induction 1; simpl; [intros s'; reflexivity|].
  apply keeps_bind; [apply keeps_files_handle_job; assumption | intros _; assumption].
Qed.

(** [Handler] never changes the job queues, the agent directory, the
    directories on disk or the working directory; without a FILETRANSFER job
    in the batch it also writes no file. *)
Theorem Handler_never_changes (l : list Job) (s : St) :
  st_queues (snd (Handler l s)) = st_queues s /\
  st_agents (snd (Handler l s)) = st_agents s /\
  st_dirs (snd (Handler l s)) = st_dirs s /\
  st_cwd (snd (Handler l s)) = st_cwd s /\
  (Forall (fun j => job_type j <> FILETRANSFER) l ->
   st_files (snd (Handler l s)) = st_files s).
Proof.
  pose proof (keeps_env_Handler l s) as He. unfold env in He.
  injection He as H1 H2 H3 H4.
  repeat split; auto. intros Hl. apply (keeps_files_Handler l Hl).
Qed.
Lemma complete_job_fail_infos (a : N) (j : Job) (i : Info) (s : St) :
  match complete_job a j i s with
  | (ROk _, _) => True
  | (_, s') => st_infos s' = st_infos s
  end.
Proof.
  destruct (frame_dispatch a j s) as (F1 & F2 & _).
  unfold complete_job, advance, Now, Repo.UpdateInfo, panic. mrun.
  destruct (dispatch a j s) as [[[]|e|p] s1] eqn:Hd; simpl in F1 |- *; auto.
  repeat case_match; simplify_eq; simpl; auto.
Qed.

(** When [Handler] fails on a job (error or panic), the job records are
    left as they were: the status is persisted only after a successful
    dispatch. *)
Theorem Handler_failure_keeps_records (j : Job) (s : St) :
  match Handler [j] s with
  | (ROk _, _) => True
  | (_, s') => st_infos s' = st_infos s
  end.
Proof.
  rewrite Handler_single.
  unfold handle_job, Agent, Repo.GetInfo, SendBroadcastMessage. mrun.
  destruct (Exist (job_agent j) s) eqn:He; simpl; [|exact I].
  rewrite He. simpl.
  destruct (st_infos s !! job_id j) as [i|] eqn:Hi; simpl; [|reflexivity].
  destruct (checkJob_state j s) as [ce Hc]. rewrite Hc.
  destruct ce as [e|].
  - destruct (bool_decide (job_type j = RESULT)); simpl; [|reflexivity].
    pose proof (complete_job_fail_infos (job_agent j) j i (debug_state j s)) as H.
    destruct (debug_state_fields j s) as (D1 & _).
    unfold debug_state in H, D1. destruct (st_debug s); simpl in *;
      unfold Printf, modify; simpl;
      destruct (complete_job _ _ _ _) as [[] ?]; simpl in H |- *;
      first [exact I | etransitivity; [exact H | exact D1]].
  - pose proof (complete_job_fail_infos (job_agent j) j i s) as H.
    destruct (complete_job _ _ _ _) as [[] ?]; auto.
Qed.

Lemma dispatch_result_bcast (a : N) (j : Job) (s : St) (o e : string) :
  job_type j = RESULT -> job_payload j = Results o e ->
  exists s1, dispatch a j s = (ROk tt, s1) /\
    st_bcast s1 = st_bcast s ++ result_bcast j (st_now s) o e.
Proof.
  intros Ht Hp. unfold dispatch, agent_Log, SendBroadcastMessage, Now, result_bcast.
  rewrite Ht, Hp. mrun.
  destruct (Nat.ltb 0 (String.length o)); destruct (Nat.ltb 0 (String.length e));
    simpl; eexists; (split; [reflexivity|]); simpl; rewrite <- ?app_assoc; reflexivity.
Qed.

(** A RESULT of a known agent whose id is on record (whether or not the
    token check passes) broadcasts a note naming the job, agent and time,
    then the stdout text at success level if it is non-empty, then the
    stderr text at warning level if it is non-empty, and marks the record
    COMPLETE at the current time. *)
Theorem Handler_result_broadcasts (j : Job) (s : St) (i : Info) (o e : string) :
  Exist (job_agent j) s = true -> repo_wf s -> st_infos s !! job_id j = Some i ->
  job_type j = RESULT -> job_payload j = Results o e ->
  exists s', Handler [j] s = (ROk tt, s') /\
    st_bcast s' = st_bcast s ++ result_bcast j (st_now s) o e /\
    st_infos s' = <[job_id j := Info_Complete (st_now s) i]> (st_infos s).
Proof.
  intros He Hwf Hi Ht Hp. rewrite Handler_single.
  destruct (checkJob_state j s) as [ce Hc].
  rewrite (handle_job_checked j s i ce He Hi Hc).
  assert (Hso : socks_ok j) by (intros Hs; congruence).
  assert (Hn : forall now, next_info j now i = Info_Complete now i)
    by (intros now; unfold next_info; rewrite Ht; reflexivity).
  destruct ce as [err|].
  - rewrite bool_decide_true by exact Ht.
    destruct (debug_state_fields j s) as (D1 & D2 & _ & D4).
    destruct (dispatch_result_bcast (job_agent j) j (debug_state j s) o e Ht Hp)
      as (s1 & Hd & Hb).
    rewrite (complete_job_ok (job_agent j) j i (debug_state j s) s1
               (debug_state_wf j s Hwf) ltac:(rewrite D1; exact Hi) Hso Hd).
    eexists; split; [reflexivity|]. simpl. rewrite Hb, D4, D2, D1, Hn. auto.
  - destruct (dispatch_result_bcast (job_agent j) j s o e Ht Hp) as (s1 & Hd & Hb).
    rewrite (complete_job_ok (job_agent j) j i s s1 Hwf Hi Hso Hd).
    eexists; split; [reflexivity|]. simpl. rewrite Hb, Hn. auto.
Qed.
(** Witness of [Handler_result_broadcasts]: the RESULT of job J with output
    "hi". *)
Lemma Handler_result_broadcasts_witness :
  exists s', Handler [Scenario.result_job "J" 7 "hi"] Scenario.s0 = (ROk tt, s') /\
    st_bcast s' = [(Note, "Results job J for agent " +++ uuid_string Scenario.A
                          +++ " at " +++ fmt_time 100); (Success, "hi")].
Proof.
  destruct (Handler_result_broadcasts (Scenario.result_job "J" 7 "hi") Scenario.s0
              (Scenario.mk_info "J" Scenario.A "CMD" 7 SENT) "hi" ""
              ltac:(vm_compute; reflexivity) s0_wf ltac:(vm_compute; reflexivity)
              eq_refl eq_refl) as (s' & Hh & Hb & _).
  exists s'. split; [exact Hh|]. rewrite Hb. reflexivity.
Defined.


(** [fileTransfer] of a download for a known agent: when
    <cwd>/data/agents does not exist it fails with the locate error and only
    logs that error against the agent; when the blob is not valid base64 it
    fails with the decode error after the results broadcast has already been
    sent, and logs the error; no file is written in either case. *)
Theorem fileTransfer_download_failures (a : N) (l b : string) (s : St) :
  Exist a s = true ->
  (agents_dir s ∉ st_dirs s -> st_files s !! agents_dir s = None ->
   fileTransfer a l b true s =
     (RErr ErrLocateDir, set_alog (st_alog s ++ [(a, error_text ErrLocateDir)]) s)) /\
  (agents_dir s ∈ st_dirs s -> Base64.DecodeString b = None ->
   fileTransfer a l b true s =
     (RErr ErrDecodeBlob,
      set_alog (st_alog s ++ [(a, error_text ErrDecodeBlob)])
        (set_bcast (st_bcast s ++ [(Success, "Results for " +++ uuid_string a +++ " at "
                                              +++ fmt_time (st_now s))]) s))).
Proof.
  intros He. unfold fileTransfer, OS.Stat_exists, Now, SendBroadcastMessage,
    log_and_fail, service_Log. mrun. unfold agents_dir. rewrite He. cbn [negb].
  split.
  - intros Hd Hf. rewrite (bool_decide_eq_false_2 _ Hd), Hf. simpl. rewrite He. reflexivity.
  - intros Hd Hb. rewrite (bool_decide_eq_true_2 _ Hd). simpl. rewrite Hb.
    unfold Exist in *. simpl. rewrite He. reflexivity.
Qed.
(** Witness of [fileTransfer_download_failures]: agent A, whose data
    directory exists, sends the blob "!!!!", which is not base64. *)
Lemma fileTransfer_download_failures_witness :
  fst (fileTransfer Scenario.A "/etc/passwd" "!!!!" true Scenario.s0) = RErr ErrDecodeBlob.
Proof.
  rewrite (proj2 (fileTransfer_download_failures Scenario.A "/etc/passwd" "!!!!" Scenario.s0
                    ltac:(vm_compute; reflexivity))).
  - reflexivity.
  - apply (bool_decide_eq_true_1 (agents_dir Scenario.s0 ∈ st_dirs Scenario.s0)).
    vm_compute. reflexivity.
  - vm_compute. reflexivity.
Defined.


(** [checkJob] only reads the state, and reports no error exactly when the
    agent is known, the job id is on record, the token matches the stored one
    and the record is neither COMPLETE nor CANCELED. *)
Theorem checkJob_accepts_iff (j : Job) (s : St) :
  snd (checkJob j s) = s /\
  (fst (checkJob j s) = ROk None <->
   Exist (job_agent j) s = true /\
   exists i, st_infos s !! job_id j = Some i /\ job_token j = info_token i /\
             info_status i <> COMPLETE /\ info_status i <> CANCELED).
Proof.
  destruct (checkJob_state j s) as [r Hr]. rewrite Hr. split; [reflexivity|]. simpl.
  split.
  - intros Hx. injection Hx as ->. unfold checkJob, Repo.GetInfo in Hr. mrun.
    destruct (Exist (job_agent j) s) eqn:He; simpl in Hr; [|discriminate].
    split; [reflexivity|].
    destruct (st_infos s !! job_id j) as [i|]; simpl in Hr; [|discriminate].
    exists i. destruct (job_token j =? info_token i)%N eqn:Et; simpl in Hr; [|discriminate].
    apply N.eqb_eq in Et.
    destruct (decide (info_status i = COMPLETE)); [discriminate|].
    destruct (decide (info_status i = CANCELED)); [discriminate|]. auto.
  - intros (He & i & Hi & Ht & H1 & H2).
    rewrite (checkJob_accept j s i He Hi Ht H1 H2) in Hr. congruence.
Qed.
Lemma In_active_rows (code : Status -> N) (a : N) (l : list (string * Info)) (r : list string) :
  In r (active_rows code a l) <->
  exists id i, In (id, i) l /\ info_agent i = a /\ live (info_status i) = true /\
    r = [id; info_command i; active_label code (info_status i);
         fmt_time (info_created i); sent_column i].
Proof.
  induction l as [|[id i] l IH]; simpl.
  - split; [intros []|intros (? & ? & [] & _)].
  - rewrite in_app_iff, IH. split.
    + intros [Hr|(id' & i' & Hin & H)].
      * destruct (N.eqb (info_agent i) a && live (info_status i)) eqn:E; [|destruct Hr].
        apply andb_true_iff in E as [E1 E2]. apply N.eqb_eq in E1.
        destruct Hr as [<-|[]]. exists id, i. auto.
      * exists id', i'. auto.
    + intros (id' & i' & [Hin|Hin] & H1 & H2 & H3).
      * injection Hin as <- <-. left. rewrite H1, N.eqb_refl, H2. simpl. auto.
      * right. exists id', i'. auto.
Qed.

Lemma In_all_rows (code : Status -> N) (l : list (string * Info)) (r : list string) :
  In r (all_rows code l) <->
  exists id i, In (id, i) l /\ live (info_status i) = true /\
    r = [uuid_string (info_agent i); id; info_command i; all_label code (info_status i);
         fmt_time (info_created i); sent_column i].
Proof.
  induction l as [|[id i] l IH]; simpl.
  - split; [intros []|intros (? & ? & [] & _)].
  - rewrite in_app_iff, IH. split.
    + intros [Hr|(id' & i' & Hin & H)].
      * destruct (live (info_status i)) eqn:E; [|destruct Hr].
        destruct Hr as [<-|[]]. exists id, i. auto.
      * exists id', i'. auto.
    + intros (id' & i' & [Hin|Hin] & H1 & H2).
      * injection Hin as <- <-. left. rewrite H1. simpl. auto.
      * right. exists id', i'. auto.
Qed.

Lemma live_iff (st : Status) : live st = true <-> st <> COMPLETE /\ st <> CANCELED.
Proof.
  unfold live. rewrite andb_true_iff, !negb_true_iff, !bool_decide_eq_false. tauto.
Qed.

(** [GetTableActive] fails for an unknown agent and changes nothing; for a
    known agent its rows are exactly one per record of that agent that is
    neither COMPLETE nor CANCELED: id, command, status label, created and
    sent time. *)
Theorem GetTableActive_rows (code : Status -> N) (a : N) (s : St) :
  (Exist a s = false -> GetTableActive code a s = (RErr (ErrNotValidAgent a), s)) /\
  (Exist a s = true ->
   exists rows, GetTableActive code a s = (ROk rows, s) /\
   forall r, In r rows <->
     exists id i, st_infos s !! id = Some i /\ info_agent i = a /\
       info_status i <> COMPLETE /\ info_status i <> CANCELED /\
       r = [id; info_command i; active_label code (info_status i);
            fmt_time (info_created i); sent_column i]).
Proof.
  unfold GetTableActive. mrun. split.
  - intros He. rewrite He. reflexivity.
  - intros He. rewrite He. simpl. eexists; split; [reflexivity|].
    intros r. rewrite In_active_rows. split.
    + intros (id & i & Hin & H1 & H2 & H3). apply live_iff in H2.
      exists id, i. split; [apply elem_of_map_to_list, list_elem_of_In; exact Hin|]. tauto.
    + intros (id & i & Hin & H1 & H2 & H3 & H4). exists id, i.
      split; [apply list_elem_of_In, elem_of_map_to_list; exact Hin|].
      split; [exact H1|]. split; [apply live_iff; auto|exact H4].
Qed.

(** [GetTableAll] changes nothing and lists exactly the records that are
    neither COMPLETE nor CANCELED, with the agent first; an ACTIVE record is
    labelled with the unknown-status text, since its switch has no ACTIVE
    case. *)
Theorem GetTableAll_rows (code : Status -> N) (s : St) :
  exists rows, GetTableAll code s = (ROk rows, s) /\
  (forall r, In r rows <->
     exists id i, st_infos s !! id = Some i /\
       info_status i <> COMPLETE /\ info_status i <> CANCELED /\
       r = [uuid_string (info_agent i); id; info_command i; all_label code (info_status i);
            fmt_time (info_created i); sent_column i]) /\
  (forall id i, st_infos s !! id = Some i -> info_status i = ACTIVE ->
     In [uuid_string (info_agent i); id; info_command i;
         "Unknown job status: " +++ Bytes.dec (N.to_nat (code ACTIVE));
         fmt_time (info_created i); sent_column i] rows).
Proof.
  unfold GetTableAll. mrun. eexists; split; [reflexivity|].
  assert (Hr : forall r, In r (all_rows code (map_to_list (st_infos s))) <->
     exists id i, st_infos s !! id = Some i /\
       info_status i <> COMPLETE /\ info_status i <> CANCELED /\
       r = [uuid_string (info_agent i); id; info_command i; all_label code (info_status i);
            fmt_time (info_created i); sent_column i]).
  { intros r. rewrite In_all_rows. split.
    - intros (id & i & Hin & H2 & H3). apply live_iff in H2.
      exists id, i. split; [apply elem_of_map_to_list, list_elem_of_In; exact Hin|]. tauto.
    - intros (id & i & Hin & H1 & H2 & H3). exists id, i.
      split; [apply list_elem_of_In, elem_of_map_to_list; exact Hin|].
      split; [apply live_iff; auto|exact H3]. }
  split; [exact Hr|].
  intros id i Hi Ha. apply Hr. exists id, i. rewrite Ha.
  split; [exact Hi|]. split; [discriminate|]. split; [discriminate|]. reflexivity.
Qed.
Definition is_socks_job (j : Job) : Prop :=
  job_type j = SOCKS /\ exists sid idx d c, job_payload j = Socks sid idx d c.

Lemma buildJob_socks (j : Job) (s : St) :
  is_socks_job j ->
  match buildJob (job_agent j) j [] s with
  | (ROk _, s') => Exist (job_agent j) s = true /\ st_agents s' = st_agents s
  | (RErr e, s') => Exist (job_agent j) s = false /\
                    e = ErrBuildUnknownAgent (job_agent j) /\ s' = s
  | (RPanic _, _) => False
  end.
Proof.
  intros (Ht & sid & idx & d & c & Hp).
  unfold buildJob, Agent.
  destruct (Exist (job_agent j) s) eqn:He; [|auto].
  unfold build_command, NewInfo, NewV4, Now, Repo.Add, agent_Log.
  cbn [job_type job_payload]. rewrite Ht, Hp. mrun.
  cbn [set_next_uuid st_infos st_agents].
  destruct (_ !! _); cbn [set_alog set_repo st_agents]; auto.
Qed.

(** [socksJobs] on SOCKS jobs coming from the SOCKS server reports one
    buildJob error per job of an unknown agent, in order, continues past
    each error, and never changes the agent directory. *)
Theorem socksJobs_reports_unknown (l : list Job) (s : St) :
  Forall is_socks_job l ->
  exists s', socksJobs l s =
    (ROk (map (fun j => ErrBuildUnknownAgent (job_agent j))
              (List.filter (fun j => negb (Exist (job_agent j) s)) l)), s') /\
    st_agents s' = st_agents s.
Proof.
  revert s. induction l as [|j l IH]; intros s Hl.
  - exists s. auto.
  - inversion Hl as [|? ? Hj Hl']; subst.
    simpl. unfold mbind, M_bind, catch.
    pose proof (buildJob_socks j s Hj) as Hb.
    destruct (buildJob (job_agent j) j [] s) as [[x|e|p] s1]; [| |contradiction].
    + destruct Hb as (He & Hag).
      destruct (IH s1 Hl') as (s' & Hs & Ha). rewrite Hs.
      assert (Hf : List.filter (fun j => negb (Exist (job_agent j) s1)) l =
                   List.filter (fun j => negb (Exist (job_agent j) s)) l).
      { apply filter_ext. intros y. unfold Exist. rewrite Hag. reflexivity. }
      rewrite He. simpl. rewrite Hf. exists s'. split; [reflexivity|]. congruence.
    + destruct Hb as (He & -> & ->).
      destruct (IH s Hl') as (s' & Hs & Ha). rewrite Hs.
      rewrite He. simpl. exists s'. auto.
Qed.
(** Witness of [socksJobs_reports_unknown]: a SOCKS packet for agent A, then
    one for agent 5, which is not in the directory. *)
Lemma socksJobs_reports_unknown_witness :
  exists s', socksJobs [Scenario.socks_job false;
                        {| job_agent := 5; job_id := "T"; job_token := 3; job_type := SOCKS;
                           job_payload := Socks "T" 0 "" false |}] Scenario.s0 =
             (ROk [ErrBuildUnknownAgent 5], s').
Proof.
  destruct (socksJobs_reports_unknown
              [Scenario.socks_job false;
               {| job_agent := 5; job_id := "T"; job_token := 3; job_type := SOCKS;
                  job_payload := Socks "T" 0 "" false |}] Scenario.s0)
    as (s' & Hs & _).
  - repeat constructor; eexists _, _, _, _; reflexivity.
  - exists s'. rewrite Hs. reflexivity.
Defined.

